(** * fetch-assets: the asset prefetching tool of the flag game

    A shallow embedding of [tools/fetch-assets.mjs]: argument parsing, the
    filter-and-reshape pipeline of [fetchCountries], [download], the loop of
    [downloadFlags] and [main], together with the properties the design
    document states about them.

    Conventions.
    - A JavaScript string is a [string]; each [ascii] is one code unit.
    - Built-ins of the JavaScript engine and of Node whose full definition is
      outside the repository ([toUpperCase], [toLowerCase], [localeCompare],
      [Number], [path.join], [path.resolve], [__dirname]) are fields of the
      class [JsHost], with the laws the standard gives them.  [AsciiHost] is
      an instance used to evaluate the code on concrete inputs.
    - The fields of a remote country entry have the types of the API:
      optional strings, and an optional name object.
    - Asynchronous code is sequential here: every [await] is a bind of the
      monad [M], which threads the world (file store, request trace, console)
      and propagates thrown errors.
    - The file store maps the paths of files to their contents; directories
      are not tracked and writing a file succeeds.  The network is a function
      of the requests made so far and the URL. *)

From stdpp Require Import gmap strings list pretty.
From Stdlib Require Import Ascii ZArith Sorted Permutation.
From Stdlib.Strings Require Byte.

Open Scope string_scope.
Open Scope list_scope.

(** ** Strings *)

Definition is_AZ (c : ascii) : bool :=
  let n := nat_of_ascii c in (65 <=? n)%nat && (n <=? 90)%nat.

Definition is_az (c : ascii) : bool :=
  let n := nat_of_ascii c in (97 <=? n)%nat && (n <=? 122)%nat.

Definition is_ascii_unit (c : ascii) : bool := (nat_of_ascii c <? 128)%nat.

Definition ascii_upper (c : ascii) : ascii :=
  if is_az c then ascii_of_nat (nat_of_ascii c - 32) else c.

Definition ascii_lower (c : ascii) : ascii :=
  if is_AZ c then ascii_of_nat (nat_of_ascii c + 32) else c.

Fixpoint string_map (f : ascii -> ascii) (s : string) : string :=
  match s with
  | EmptyString => EmptyString
  | String c s' => String (f c) (string_map f s')
  end.

Fixpoint string_forallb (p : ascii -> bool) (s : string) : bool :=
  match s with
  | EmptyString => true
  | String c s' => p c && string_forallb p s'
  end.

Definition all_ascii (s : string) : bool := string_forallb is_ascii_unit s.

(** [s.includes(c)] for a one-character needle. *)
Fixpoint includes (c : ascii) (s : string) : bool :=
  match s with
  | EmptyString => false
  | String d s' => if Ascii.eqb c d then true else includes c s'
  end.

(** [s.split(c)] for a one-character separator: the pieces between the
    separators, in order (one piece when there is no separator). *)
Fixpoint split (c : ascii) (s : string) : list string :=
  match s with
  | EmptyString => [EmptyString]
  | String d s' =>
      if Ascii.eqb c d then EmptyString :: split c s'
      else match split c s' with
           | [] => [String d EmptyString]
           | p :: ps => String d p :: ps
           end
  end.

(** Truthiness of a string: [Boolean(s)]. *)
Definition truthy (s : string) : bool := negb (String.eqb s "").

(** [x || d] where [x] is a string or [undefined]/[null] ([None]). *)
Definition or_else (x : option string) (d : string) : string :=
  match x with
  | Some s => if truthy s then s else d
  | None => d
  end.

(** ** The host: built-ins of the engine and of Node *)

Class JsHost := {
  toUpperCase : string -> string;
  toLowerCase : string -> string;
  localeCompare : string -> string -> Z;
  (** [Number(s)]: [None] is NaN.  Only integral values are modelled: a
      numeral with a fraction, such as [.5], is outside the model. *)
  Number_ : string -> option Z;
  path_join : string -> string -> string;
  path_resolve : string -> string -> string;
  dirname__ : string;
  (** On ASCII input the case mappings are the simple per-letter ones. *)
  toUpperCase_ascii :
    forall s, all_ascii s = true -> toUpperCase s = string_map ascii_upper s;
  toLowerCase_ascii :
    forall s, all_ascii s = true -> toLowerCase s = string_map ascii_lower s;
  (** A collation is a total preorder: the comparator is consistent. *)
  localeCompare_antisym :
    forall a b, Z.sgn (localeCompare a b) = (- Z.sgn (localeCompare b a))%Z;
  localeCompare_trans :
    forall a b c, (localeCompare a b <= 0)%Z -> (localeCompare b c <= 0)%Z ->
                  (localeCompare a c <= 0)%Z
}.

(** ** Countries: the remote record and the simplified record *)

Module Raw.
(** [name] object of the remote record. *)
Record name_obj := { common : option string; official : option string }.
(** One entry of the remote list (fields=cca2,name,region).  [None] is a
    missing or null field. *)
Record t := { cca2 : option string; name : option name_obj; region : option string }.
End Raw.

Record country := { code : string; name : string }.

(** [/^[A-Z]{2}$/.test(s)] *)
Definition code_re_test (s : string) : bool :=
  match s with
  | String a (String b EmptyString) => is_AZ a && is_AZ b
  | _ => false
  end.

(** The design document's "two-letter code", read on the remote field before
    it is normalised: exactly two letters, of either case.  It is compared
    below with [code_re_test] after [toUpperCase]. *)
Definition spec_two_letter_code (s : string) : bool :=
  match s with
  | String a (String b EmptyString) => (is_AZ a || is_az a) && (is_AZ b || is_az b)
  | _ => false
  end.

(** [arr.sort(cmp)]: the sort is stable; with a consistent comparator the
    result is the stable sorted arrangement, computed here by insertion. *)
Section Sort.
Context {A : Type} (cmp : A -> A -> Z).

Fixpoint sort_insert (x : A) (l : list A) : list A :=
  match l with
  | [] => [x]
  | y :: l' => if (cmp x y <=? 0)%Z then x :: y :: l' else y :: sort_insert x l'
  end.

Fixpoint sort (l : list A) : list A :=
  match l with
  | [] => []
  | x :: l' => sort_insert x (sort l')
  end.
End Sort.

Section Countries.
Context `{JsHost}.

(** [(c) => ({ code: String(c.cca2 || '').toUpperCase(), name: c.name?.common || '' })] *)
Definition simplify (c : Raw.t) : country :=
  {| code := toUpperCase (or_else (Raw.cca2 c) "");
     name := or_else (Raw.name c ≫= Raw.common) "" |}.

(** [(c) => /^[A-Z]{2}$/.test(c.code) && c.name && c.code !== 'XK'] *)
Definition keep (c : country) : bool :=
  code_re_test (code c) && truthy (name c) && negb (String.eqb (code c) "XK").

(** [(a, b) => a.name.localeCompare(b.name)] *)
Definition by_name (a b : country) : Z := localeCompare (name a) (name b).

(** The [data.map(..).filter(..).sort(..)] chain of [fetchCountries]. *)
Definition simple (data : list Raw.t) : list country :=
  sort by_name (List.filter keep (List.map simplify data)).
End Countries.

(** ** Command line options *)

Record opts := {
  svg : bool; png : bool; json : bool; both : bool; limit : Z; noFlags : bool
}.

Definition set_svg (b : bool) (o : opts) : opts :=
  {| svg := b; png := png o; json := json o; both := both o; limit := limit o; noFlags := noFlags o |}.
Definition set_png (b : bool) (o : opts) : opts :=
  {| svg := svg o; png := b; json := json o; both := both o; limit := limit o; noFlags := noFlags o |}.
Definition set_both (b : bool) (o : opts) : opts :=
  {| svg := svg o; png := png o; json := json o; both := b; limit := limit o; noFlags := noFlags o |}.
Definition set_json (b : bool) (o : opts) : opts :=
  {| svg := svg o; png := png o; json := b; both := both o; limit := limit o; noFlags := noFlags o |}.
Definition set_limit (z : Z) (o : opts) : opts :=
  {| svg := svg o; png := png o; json := json o; both := both o; limit := z; noFlags := noFlags o |}.
(** [opts.noFlags = true; opts.svg = false; opts.png = false; opts.both = false] *)
Definition set_noFlags (o : opts) : opts :=
  {| svg := false; png := false; json := json o; both := false; limit := limit o; noFlags := true |}.

Section ParseArgs.
Context `{JsHost}.

(** The [toBool] closure; [None] is [null]/[undefined]. *)
Definition toBool (x : option string) : bool :=
  match x with
  | None => true
  | Some x =>
      let s := toLowerCase x in
      if String.eqb s "false" || String.eqb s "0" || String.eqb s "no" then false
      else truthy x
  end.

(** [if (a.includes('=')) { const [k, v] = a.split('='); a = k; val = v; }]:
    the pair [(a, val)] after these lines. *)
Definition split_arg (a : string) : string * option string :=
  if includes "=" a then
    match split "=" a with
    | k :: v :: _ => (k, Some v)
    | k :: [] => (k, None)
    | [] => (a, None)
    end
  else (a, None).

(** [Number(x) || 0] *)
Definition number_or_0 (x : string) : Z := default 0%Z (Number_ x).

(** One turn of the loop of [parseArgs] on [args[i]], where [next] is
    [args[i+1]].  The boolean tells whether [++i] ran, that is whether the
    next argument was consumed as the value of [--limit]. *)
Definition parse_arg (a0 : string) (next : option string) (o : opts) : opts * bool :=
  let '(a, val) := split_arg a0 in
  if String.eqb a "--svg" then (set_svg (toBool val) o, false)
  else if String.eqb a "--png" then (set_png (toBool val) o, false)
  else if String.eqb a "--both" then (set_both (toBool val) o, false)
  else if String.eqb a "--no-flags" then (set_noFlags o, false)
  else if String.eqb a "--only=json" then (set_json true (set_noFlags o), false)
  else if String.eqb a "--no-json" then (set_json false o, false)
  else if String.eqb a "--json" then (set_json (toBool val) o, false)
  else if String.eqb a "--limit" then
    match val with
    | Some v => (set_limit (number_or_0 v) o, false)
    | None =>
        (* Number(args[++i] || 0) || 0 *)
        (set_limit (match next with
                    | Some n => if truthy n then number_or_0 n else 0%Z
                    | None => 0%Z
                    end) o, true)
    end
  else (o, false).

Fixpoint parse_loop (args : list string) (o : opts) : opts :=
  match args with
  | [] => o
  | a0 :: rest =>
      let '(o', consumed) := parse_arg a0 (head rest) o in
      match consumed, rest with
      | true, _ :: rest' => parse_loop rest' o'
      | _, _ => parse_loop rest o'
      end
  end.

(** [parseArgs()], with [args = process.argv.slice(2)]. *)
Definition parseArgs (args : list string) : opts :=
  let o := parse_loop args
             {| svg := false; png := false; json := true; both := false;
                limit := 0%Z; noFlags := false |} in
  if negb (noFlags o) && negb (svg o) && negb (png o) && negb (both o)
  then set_svg true o else o.
End ParseArgs.

(** The arguments that the loop of [parseArgs] reads as options: all of
    them but those that [args[++i]] takes as the value of a bare
    [--limit]. *)
Fixpoint examined (args : list string) : list string :=
  match args with
  | [] => []
  | a :: rest =>
      a :: match String.eqb a "--limit", rest with
           | true, _ :: rest' => examined rest'
           | _, _ => examined rest
           end
  end.

(** ** The world: files, network, console *)

(** Content of a file: the bytes of a downloaded body, or the text
    [JSON.stringify(items, null, 2)], kept as the list it serialises. *)
Inductive file :=
| FBytes (b : list Byte.byte)
| FJson (items : list country).

Inductive response_type := Basic | Cors | Default | Error | Opaque | OpaqueRedirect.

(** A [Response]: [arrayBuffer] and [json_] are what [res.arrayBuffer()] and
    [res.json()] resolve to.  The bodies of the model are those that do not
    parse ([json_ = None]: [res.json()] rejects) and those that parse to a
    list of country objects with fields typed as in the API; a body that
    parses to anything else is outside the model. *)
Record response := {
  ok : bool; type_ : response_type; status : N;
  arrayBuffer : list Byte.byte; json_ : option (list Raw.t)
}.

Inductive exn :=
| FetchRejected (url : string)              (* fetch() itself rejects *)
| JsonRejected (url : string)               (* res.json() rejects *)
| CountriesFailed (st : N)                  (* `Failed to fetch countries: ${res.status}` *)
| DownloadFailed (url : string) (st : N).   (* `Failed ${url} -> ${res.status}` *)

Inductive log :=
| LogWrote (path : string) (n : nat)   (* `Wrote ${COUNTRIES_JSON} (${items.length} countries)` *)
| WarnSvgFail (code : string) (e : exn)  (* console.warn('SVG fail', code, e.message) *)
| WarnPngFail (code : string) (e : exn)  (* console.warn('PNG fail', code, e.message) *)
| LogFlags (n_ok n_fail : nat)           (* `Flags downloaded: ${ok}, failed: ${fail}` *)
| LogError (e : exn).                    (* console.error(e) *)

(** [fs]: the files that exist, by path.  [requests]: the URLs fetched so
    far, oldest first.  [console]: the lines printed so far, oldest first. *)
Record world := { fs : gmap string file; requests : list string; console : list log }.

(** The remote side: what [fetch(url)] resolves to, given the requests made
    before it; [None] when it rejects. *)
Definition network := list string -> string -> option response.

Inductive result (A : Type) :=
| Ok (a : A)
| Throw (e : exn).
Arguments Ok {A} a.
Arguments Throw {A} e.

Definition M (A : Type) : Type := world -> result A * world.

#[global] Instance M_ret : MRet M := fun A a w => (Ok a, w).
#[global] Instance M_bind : MBind M := fun A B f m w =>
  match m w with
  | (Ok a, w') => f a w'
  | (Throw e, w') => (Throw e, w')
  end.

Definition throw {A} (e : exn) : M A := fun w => (Throw e, w).

(** [try { m } catch (e) { h e }] *)
Definition try_catch {A} (m : M A) (h : exn -> M A) : M A := fun w =>
  match m w with
  | (Ok a, w') => (Ok a, w')
  | (Throw e, w') => h e w'
  end.

(** The world after [fetch(url)]. *)
Definition requested (url : string) (w : world) : world :=
  {| fs := fs w; requests := requests w ++ [url]; console := console w |}.

(** The world after a download of [r] to [dest]. *)
Definition stored (url dest : string) (r : response) (w : world) : world :=
  {| fs := <[dest := FBytes (arrayBuffer r)]> (fs w);
     requests := requests w ++ [url]; console := console w |}.

(** The world after a failed download: the request and the warning. *)
Definition warned (url : string) (l : log) (w : world) : world :=
  {| fs := fs w; requests := requests w ++ [url]; console := console w ++ [l] |}.

Definition is_opaque (t : response_type) : bool :=
  match t with Opaque => true | _ => false end.

Definition FLAGCDN_BASE : string := "https://flagcdn.com".
Definition FLAGSAPI_BASE : string := "https://flagsapi.com".
Definition COUNTRIES_URL : string :=
  "https://restcountries.com/v3.1/all?fields=cca2,name,region".

Section Tool.
Context `{JsHost} (net : network).

Definition ROOT : string := path_resolve dirname__ "..".
Definition ASSETS : string := path_join ROOT "assets".
Definition FLAGS_DIR : string := path_join ASSETS "flags".
Definition COUNTRIES_JSON : string := path_join ASSETS "countries.json".

Definition fetch (url : string) : M response := fun w =>
  let w' := {| fs := fs w; requests := requests w ++ [url]; console := console w |} in
  match net (requests w) url with
  | Some r => (Ok r, w')
  | None => (Throw (FetchRejected url), w')
  end.

(** [writeFile(p, f)]: creates or replaces the file. *)
Definition writeFile (p : string) (f : file) : M unit := fun w =>
  (Ok tt, {| fs := <[p := f]> (fs w); requests := requests w; console := console w |}).

Definition console_print (l : log) : M unit := fun w =>
  (Ok tt, {| fs := fs w; requests := requests w; console := console w ++ [l] |}).

(** [mkdir(dir, { recursive: true })]; directories are not tracked, the
    store maps the paths of files to their content. *)
Definition ensureDir (dir : string) : M unit := mret tt.

(** [try { await access(p, F_OK); return true; } catch { return false; }] *)
Definition fileExists (p : string) : M bool := fun w =>
  (Ok (bool_decide (is_Some (fs w !! p))), w).

Definition fetchCountries : M (list country) :=
  res ← fetch COUNTRIES_URL;
  if negb (ok res) then throw (CountriesFailed (status res))
  else
    data ← (match json_ res with
            | Some d => mret d
            | None => throw (JsonRejected COUNTRIES_URL)
            end);
    mret (simple data).

Definition saveCountriesJson (items : list country) : M unit :=
  ensureDir ASSETS;;
  writeFile COUNTRIES_JSON (FJson items);;
  console_print (LogWrote COUNTRIES_JSON (length items)).

Definition download (url destPath : string) : M unit :=
  res ← fetch url;
  if negb (ok res) && negb (is_opaque (type_ res))
  then throw (DownloadFailed url (status res))
  else writeFile destPath (FBytes (arrayBuffer res)).

Definition svgUrl (code : string) : string :=
  FLAGCDN_BASE +:+ "/" +:+ toLowerCase code +:+ ".svg".

Definition pngUrl (code : string) (size : N) (style : string) : string :=
  FLAGSAPI_BASE +:+ "/" +:+ code +:+ "/" +:+ style +:+ "/" +:+ pretty size +:+ ".png".

(** [pngUrl(code)] with the default parameters [size = 512, style = 'flat']. *)
Definition pngUrl_default (code : string) : string := pngUrl code 512 "flat".

(** One of the two blocks of the loop body of [downloadFlags]:
    [const out = ...; if (!(await fileExists(out))) { try { await download(url, out); ok++; }
       catch (e) { fail++; console.warn(.., code, e.message); } }]
    on the counters [(ok, fail)]. *)
Definition fetch_flag (url out : string) (warn : exn -> log) (cnt : nat * nat) : M (nat * nat) :=
  ex ← fileExists out;
  if negb ex then
    try_catch (download url out;; mret (S cnt.1, cnt.2))
              (fun e => console_print (warn e);; mret (cnt.1, S cnt.2))
  else mret cnt.

(** The body of [for (const code of list)]. *)
Definition flag_step (dlSvg dlPng : bool) (code : string) (cnt : nat * nat) : M (nat * nat) :=
  let lc := toLowerCase code in
  cnt ← (if dlSvg
         then fetch_flag (svgUrl code) (path_join FLAGS_DIR (lc +:+ ".svg")) (WarnSvgFail code) cnt
         else mret cnt);
  if dlPng
  then fetch_flag (pngUrl_default code) (path_join FLAGS_DIR (lc +:+ ".png")) (WarnPngFail code) cnt
  else mret cnt.

Fixpoint flags_loop (dlSvg dlPng : bool) (list : list string) (cnt : nat * nat) : M (nat * nat) :=
  match list with
  | [] => mret cnt
  | code :: rest => cnt ← flag_step dlSvg dlPng code cnt; flags_loop dlSvg dlPng rest cnt
  end.

(** [limit > 0 ? codes.slice(0, limit) : codes] *)
Definition capped (limit : Z) (codes : list string) : list string :=
  if (0 <? limit)%Z then take (Z.to_nat limit) codes else codes.

Definition downloadFlags (codes : list string) (o : opts) : M unit :=
  ensureDir FLAGS_DIR;;
  let dlSvg := svg o || both o in
  let dlPng := png o || both o in
  let list := capped (limit o) codes in
  cnt ← flags_loop dlSvg dlPng list (0, 0);
  console_print (LogFlags cnt.1 cnt.2).

Definition main (args : list string) : M unit :=
  let opts := parseArgs args in
  countries ← fetchCountries;
  (if json opts then saveCountriesJson countries else mret tt);;
  let codes := List.map code countries in
  if negb (noFlags opts) && (svg opts || png opts || both opts)
  then downloadFlags codes opts
  else mret tt.

(** [main().catch((e) => { console.error(e); process.exit(1); })]: the exit
    code of the process and the final world. *)
Definition run (args : list string) (w : world) : nat * world :=
  match main args w with
  | (Ok _, w') => (0, w')
  | (Throw e, w') =>
      (1, {| fs := fs w'; requests := requests w'; console := console w' ++ [LogError e] |})
  end.
End Tool.

(** ** A host for ASCII and Latin-1 text

    The functions of [AsciiHost].  Case mappings: per letter on ASCII, and on
    the Latin-1 letters as the engine has them, among them the one-to-two
    mapping of the sharp s (unit 223) to [SS]; the units 181 and 255, whose
    upper-case forms are outside the 8-bit range, are left as they are.
    Collation: text is compared without regard to case, unit by unit, and
    for two texts equal up to case the one with the first lower-case letter
    comes first, which is the order of the root collation on text made of
    ASCII letters, digits and spaces.  Numerals: decimal, with an optional
    sign.  Paths: POSIX. *)

Definition is_latin1_lower (c : ascii) : bool :=
  let n := nat_of_ascii c in (224 <=? n)%nat && (n <=? 254)%nat && negb (n =? 247)%nat.

Definition is_latin1_upper (c : ascii) : bool :=
  let n := nat_of_ascii c in (192 <=? n)%nat && (n <=? 222)%nat && negb (n =? 215)%nat.

(** The upper-case form of one unit. *)
Definition upper_units (c : ascii) : string :=
  if (nat_of_ascii c =? 223)%nat then "SS"
  else if is_az c || is_latin1_lower c
       then String (ascii_of_nat (nat_of_ascii c - 32)) EmptyString
       else String c EmptyString.

Definition lower_unit (c : ascii) : ascii :=
  if is_AZ c || is_latin1_upper c then ascii_of_nat (nat_of_ascii c + 32) else c.

Fixpoint string_flat_map (f : ascii -> string) (s : string) : string :=
  match s with
  | EmptyString => EmptyString
  | String c s' => f c +:+ string_flat_map f s'
  end.

Definition compare_units (a b : string) : Z :=
  match String.compare a b with
  | Lt => (-1)%Z
  | Eq => 0%Z
  | Gt => 1%Z
  end.

Definition collate (a b : string) : Z :=
  match String.compare (string_map ascii_lower a) (string_map ascii_lower b) with
  | Lt => (-1)%Z
  | Eq => compare_units b a
  | Gt => 1%Z
  end.

Definition digit_val (c : ascii) : option Z :=
  let n := nat_of_ascii c in
  if (48 <=? n)%nat && (n <=? 57)%nat then Some (Z.of_nat (n - 48)) else None.

Fixpoint digits_val (acc : Z) (s : string) : option Z :=
  match s with
  | EmptyString => Some acc
  | String c s' =>
      match digit_val c with
      | Some d => digits_val (10 * acc + d) s'
      | None => None
      end
  end.

Definition decimal_number (s : string) : option Z :=
  match s with
  | String "-" (String c s') => Z.opp <$> digits_val 0 (String c s')
  | String "+" (String c s') => digits_val 0 (String c s')
  | _ => digits_val 0 s
  end.

Fixpoint join_with (sep : string) (l : list string) : string :=
  match l with
  | [] => ""
  | [p] => p
  | p :: ps => p +:+ sep +:+ join_with sep ps
  end.

Definition posix_join (a b : string) : string := a +:+ "/" +:+ b.

Definition posix_resolve (a b : string) : string :=
  if String.eqb b ".." then join_with "/" (removelast (split "/" a))
  else posix_join a b.

(** On ASCII text the case mappings are the per-letter ones, and [collate]
    is a consistent comparator: it is the lexicographic combination of two
    total preorders on strings. *)
#[global, refine] Instance AsciiHost : JsHost := {|
  toUpperCase := string_flat_map upper_units;
  toLowerCase := string_map lower_unit;
  localeCompare := collate;
  Number_ := decimal_number;
  path_join := posix_join;
  path_resolve := posix_resolve;
  dirname__ := "/app/tools"
|}.
Proof.
  - assert (forall c, is_ascii_unit c = true ->
              upper_units c = String (ascii_upper c) EmptyString) as Hc.
    { intros c. destruct c as [[] [] [] [] [] [] [] []]; vm_compute; (discriminate || done). }
    induction s as [|c s IH]; [done|]. unfold all_ascii. simpl.
    intros [Hc1 Hs]%andb_true_iff. by rewrite Hc, IH.
  - assert (forall c, is_ascii_unit c = true -> lower_unit c = ascii_lower c) as Hc.
    { intros c. destruct c as [[] [] [] [] [] [] [] []]; vm_compute; (discriminate || done). }
    induction s as [|c s IH]; [done|]. unfold all_ascii. simpl.
    intros [Hc1 Hs]%andb_true_iff. by rewrite Hc, IH.
  - intros a b. unfold collate, compare_units.
    rewrite (String.compare_antisym (string_map ascii_lower a)),
            (String.compare_antisym b a).
    by destruct (String.compare (string_map ascii_lower b) (string_map ascii_lower a)),
                (String.compare a b).
  - assert (forall a b c : string,
              String.compare a b <> Gt -> String.compare b c <> Gt ->
              String.compare a c <> Gt) as Hle.
    { induction a as [|x a IH]; intros [|y b] [|z c]; simpl; try done.
      unfold Ascii.compare.
      destruct (N.compare_spec (N_of_ascii x) (N_of_ascii y)) as [Hxy|Hxy|Hxy]; [| |done].
      - rewrite Hxy.
        destruct (N.compare (N_of_ascii y) (N_of_ascii z)); [apply IH|done|done].
      - intros _.
        destruct (N.compare_spec (N_of_ascii y) (N_of_ascii z)) as [Hyz|Hyz|Hyz];
          [| |done]; intros _.
        + rewrite <- Hyz. by rewrite (proj2 (N.compare_lt_iff _ _) Hxy).
        + by rewrite (proj2 (N.compare_lt_iff _ _) (N.lt_trans _ _ _ Hxy Hyz)). }
    assert (forall a : string, String.compare a a = Eq) as Hrefl.
    { intros a. pose proof (String.compare_antisym a a). by destruct (String.compare a a). }
    assert (forall a b c : string,
              String.compare a b = Lt -> String.compare b c = Lt ->
              String.compare a c = Lt) as Hlt.
    { intros a b c Hab Hbc.
      destruct (String.compare a c) eqn:Hac; [|done|].
      - apply String.compare_eq_iff in Hac as ->.
        rewrite (String.compare_antisym c b), Hbc in Hab. done.
      - exfalso. apply (Hle a b c); by rewrite ?Hab, ?Hbc. }
    intros a b c. unfold collate, compare_units.
    destruct (String.compare (string_map ascii_lower a) (string_map ascii_lower b)) eqn:Hab;
      [|clear Hle|intros; lia].
    + apply String.compare_eq_iff in Hab. rewrite Hab.
      destruct (String.compare (string_map ascii_lower b) (string_map ascii_lower c));
        [|intros; lia|intros; lia].
      intros H1 H2. specialize (Hle c b a).
      destruct (String.compare b a), (String.compare c b), (String.compare c a);
        try lia; exfalso; by apply Hle.
    + intros _.
      destruct (String.compare (string_map ascii_lower b) (string_map ascii_lower c)) eqn:Hbc;
        [|intros _|intros; lia].
      * apply String.compare_eq_iff in Hbc. rewrite <- Hbc, Hab. lia.
      * rewrite (Hlt _ _ _ Hab Hbc). lia.
Defined.

(** ** Jobs: the downloads a run of [downloadFlags] considers, in order *)

Record job := { j_url : string; j_out : string; j_warn : exn -> log }.

Section Jobs.
Context `{JsHost} (net : network).

Definition svg_job (code : string) : job :=
  {| j_url := svgUrl code;
     j_out := path_join FLAGS_DIR (toLowerCase code +:+ ".svg");
     j_warn := WarnSvgFail code |}.

Definition png_job (code : string) : job :=
  {| j_url := pngUrl_default code;
     j_out := path_join FLAGS_DIR (toLowerCase code +:+ ".png");
     j_warn := WarnPngFail code |}.

Definition jobs_of (dlSvg dlPng : bool) (codes : list string) : list job :=
  flat_map (fun code => ((if dlSvg then [svg_job code] else []) ++
                         (if dlPng then [png_job code] else []))%list) codes.

Fixpoint run_jobs (js : list job) (cnt : nat * nat) : M (nat * nat) :=
  match js with
  | [] => mret cnt
  | j :: js' => cnt ← fetch_flag net (j_url j) (j_out j) (j_warn j) cnt; run_jobs js' cnt
  end.
End Jobs.

(** What a run of a list of jobs leaves behind: [new] are the requests it
    made and [warns] the warnings it printed, both in order. *)
Record jobs_post (net : network) (js : list job) (cnt : nat * nat) (w : world)
    (cnt' : nat * nat) (w' : world) (new : list string) (warns : list log) : Prop := {
  post_requests : requests w' = (requests w ++ new)%list;
  post_console : console w' = (console w ++ warns)%list;
  post_frame : forall p f, fs w !! p = Some f -> fs w' !! p = Some f;
  post_requested :
    forall u, In u new -> exists j, In j js /\ j_url j = u /\ fs w !! j_out j = None;
  post_created :
    forall p, fs w !! p = None -> is_Some (fs w' !! p) ->
      exists j reqs r, In j js /\ j_out j = p /\ In (j_url j) new /\
        net reqs (j_url j) = Some r /\ fs w' !! p = Some (FBytes (arrayBuffer r));
  post_processed : forall j, In j js -> is_Some (fs w' !! j_out j) \/ In (j_url j) new;
  post_count : cnt'.1 + cnt'.2 = cnt.1 + cnt.2 + length new;
  post_fail : cnt'.2 = cnt.2 + length warns;
  post_bound : length new <= length js;
  post_warns : forall l, In l warns -> exists j e, In j js /\ l = j_warn j e
}.

(** The outcome of [fetch(url)] made after the requests [reqs], as
    [download] tells them apart: the fetch fails when it rejects or resolves
    to a response with [!res.ok && res.type !== 'opaque']; otherwise it
    succeeds with the response [r]. *)
Definition fetch_fails (net : network) (reqs : list string) (url : string) : Prop :=
  net reqs url = None \/
  exists r, net reqs url = Some r /\ ok r = false /\ type_ r <> Opaque.

Definition fetch_succeeds (net : network) (reqs : list string) (url : string)
    (r : response) : Prop :=
  net reqs url = Some r /\ (ok r = true \/ type_ r = Opaque).

(** ** Sample data *)

(** A remote entry with the given code and common name. *)
Definition raw (c n : string) : Raw.t :=
  {| Raw.cca2 := Some c;
     Raw.name := Some {| Raw.common := Some n; Raw.official := None |};
     Raw.region := None |}.

(** A remote entry with the given code and no name. *)
Definition raw_unnamed (c : string) : Raw.t :=
  {| Raw.cca2 := Some c; Raw.name := None; Raw.region := None |}.

Definition FR : country := {| code := "FR"; name := "France" |}.
Definition US : country := {| code := "US"; name := "United States" |}.

(** A network for the examples: the country list, one flag that is served,
    one that is missing, one opaque response; every other request rejects. *)
Definition sample_countries_response : response :=
  {| ok := true; type_ := Basic; status := 200; arrayBuffer := [];
     json_ := Some [raw "US" "United States"; raw "FR" "France"] |}.

Definition sample_svg_response : response :=
  {| ok := true; type_ := Basic; status := 200;
     arrayBuffer := [Byte.x3c; Byte.x73; Byte.x76; Byte.x67; Byte.x3e]; json_ := None |}.

Definition sample_missing_response : response :=
  {| ok := false; type_ := Basic; status := 404; arrayBuffer := []; json_ := None |}.

Definition sample_opaque_response : response :=
  {| ok := false; type_ := Opaque; status := 0; arrayBuffer := [Byte.x89]; json_ := None |}.

Definition sample_net : network := fun _ url =>
  if String.eqb url COUNTRIES_URL then Some sample_countries_response
  else if String.eqb url "https://flagcdn.com/fr.svg" then Some sample_svg_response
  else if String.eqb url "https://flagcdn.com/us.svg" then Some sample_missing_response
  else if String.eqb url "https://flagsapi.com/FR/flat/512.png" then Some sample_opaque_response
  else None.

Definition empty_world : world := {| fs := ∅; requests := []; console := [] |}.

(** * Properties *)

(** ** The paths of the ASCII host *)

Example AsciiHost_paths :
  FLAGS_DIR = "/app/assets/flags" /\ COUNTRIES_JSON = "/app/assets/countries.json".
Proof. by vm_compute. Qed.

(** ** Sorting with a consistent comparator *)

Section SortFacts.
Context {A : Type} (cmp : A -> A -> Z).

Lemma sort_insert_perm (x : A) (l : list A) : Permutation (sort_insert cmp x l) (x :: l).
Proof.
  induction l as [|y l IH]; simpl; [done|].
  destruct (cmp x y <=? 0)%Z; [done|].
  rewrite IH. apply perm_swap.
Qed.

Lemma sort_perm (l : list A) : Permutation (sort cmp l) l.
Proof.
  induction l as [|x l IH]; simpl; [done|].
  rewrite sort_insert_perm. by constructor.
Qed.

Lemma sort_In (x : A) (l : list A) : In x (sort cmp l) <-> In x l.
Proof.
  split; apply Permutation_in; [|symmetry]; apply sort_perm.
Qed.

Hypothesis cmp_total : forall a b, (0 < cmp a b)%Z -> (cmp b a <= 0)%Z.
Hypothesis cmp_trans : forall a b c, (cmp a b <= 0)%Z -> (cmp b c <= 0)%Z -> (cmp a c <= 0)%Z.

Lemma sort_insert_sorted (x : A) (l : list A) :
  StronglySorted (fun a b => cmp a b <= 0)%Z l ->
  StronglySorted (fun a b => cmp a b <= 0)%Z (sort_insert cmp x l).
Proof.
  induction 1 as [|y l Hl IH Hy]; simpl.
  - repeat constructor.
  - destruct (Z.leb_spec (cmp x y) 0) as [Hxy|Hxy].
    + constructor; [by constructor|].
      constructor; [done|].
      eapply Forall_impl; [exact Hy|]. intros z Hz. by eapply cmp_trans.
    + constructor; [done|].
      rewrite sort_insert_perm. constructor; [|done].
      by apply cmp_total.
Qed.

Lemma sort_sorted (l : list A) : StronglySorted (fun a b => cmp a b <= 0)%Z (sort cmp l).
Proof.
  induction l as [|x l IH]; simpl; [constructor|].
  by apply sort_insert_sorted.
Qed.
End SortFacts.

(** ** The filter-and-reshape step of fetchCountries *)

Section CountriesFacts.
Context `{JsHost}.

Lemma localeCompare_total (a b : string) :
  (0 < localeCompare a b)%Z -> (localeCompare b a <= 0)%Z.
Proof. pose proof (localeCompare_antisym a b). lia. Qed.

Lemma toUpperCase_empty : toUpperCase "" = "".
Proof. by rewrite toUpperCase_ascii. Qed.

Lemma keep_true (c : country) :
  keep c = true <-> code_re_test (code c) = true /\ name c <> "" /\ code c <> "XK".
Proof.
  unfold keep, truthy. rewrite !andb_true_iff, !negb_true_iff.
  rewrite !String.eqb_neq. tauto.
Qed.

Lemma keep_false (c : country) :
  keep c = false <-> code_re_test (code c) = false \/ name c = "" \/ code c = "XK".
Proof.
  unfold keep, truthy. rewrite !andb_false_iff, !negb_false_iff.
  rewrite !String.eqb_eq. tauto.
Qed.

Lemma simple_In (c : country) (data : list Raw.t) :
  In c (simple data) <-> In c (List.map simplify data) /\ keep c = true.
Proof. unfold simple. by rewrite sort_In, filter_In. Qed.

Lemma simple_perm (data : list Raw.t) :
  Permutation (simple data)
              (List.map simplify (List.filter (fun r => keep (simplify r)) data)).
Proof.
  unfold simple. rewrite sort_perm.
  induction data as [|r data IH]; simpl; [done|].
  destruct (keep (simplify r)); simpl; by rewrite IH.
Qed.

Lemma simple_sorted (data : list Raw.t) :
  StronglySorted (fun a b => localeCompare (name a) (name b) <= 0)%Z (simple data).
Proof.
  unfold simple. apply (sort_sorted by_name).
  - intros a b. apply localeCompare_total.
  - intros a b c. apply localeCompare_trans.
Qed.
End CountriesFacts.

Section NormalisedCode.
Context `{JsHost}.

Lemma upper_is_AZ (c : ascii) :
  is_ascii_unit c = true -> is_AZ (ascii_upper c) = is_AZ c || is_az c.
Proof. destruct c as [[] [] [] [] [] [] [] []]; vm_compute; (discriminate || done). Qed.

(** On ASCII text the pattern accepts the normalised code exactly when the
    remote field is a two-letter code. *)
Lemma code_re_test_upper (s : string) :
  all_ascii s = true -> code_re_test (toUpperCase s) = spec_two_letter_code s.
Proof.
  intros Hs. rewrite toUpperCase_ascii by done.
  destruct s as [|a [|b [|c s]]]; try done.
  unfold all_ascii in Hs. simpl in Hs.
  apply andb_true_iff in Hs as [Ha Hs]. apply andb_true_iff in Hs as [Hb _].
  simpl. by rewrite !upper_is_AZ.
Qed.
End NormalisedCode.

(** A raw code of one unit, the sharp s, is not a two-letter code, but its
    upper-case form is [SS]: the entry passes the filter and is in the
    output. *)
Lemma sharp_s_entry_is_kept :
  spec_two_letter_code (String "223" "") = false /\
  String.length (String "223" "") = 1 /\
  simple (H := AsciiHost) [raw (String "223" "") "Eszett"]
  = [{| code := "SS"; name := "Eszett" |}].
Proof. by vm_compute. Qed.

(** C1 (amended).  Every record in the output of the filter-and-reshape step
    of fetchCountries has a code matching [^[A-Z]{2}$], a non-empty name and
    a code other than XK.  An input entry is not in the output when its code
    as normalised by [String(..).toUpperCase()] does not match the pattern,
    when its display name is missing or empty, or when its normalised code
    is XK; in particular when it has no code, when its code is ASCII text
    other than two letters, when it has no name object or no common name,
    and when its code is XK.  The output is, up to order, the reshaped
    entries that pass the three tests. *)
Theorem fetchCountries_keeps_only_valid `{JsHost} (data : list Raw.t) :
  (forall c, In c (simple data) ->
     code_re_test (code c) = true /\ name c <> "" /\ code c <> "XK") /\
  (forall r,
     code_re_test (toUpperCase (or_else (Raw.cca2 r) "")) = false \/
     or_else (Raw.name r ≫= Raw.common) "" = "" \/
     toUpperCase (or_else (Raw.cca2 r) "") = "XK" ->
     ~ In (simplify r) (simple data)) /\
  (forall r, Raw.cca2 r = None \/
             (exists s, Raw.cca2 r = Some s /\ all_ascii s = true /\
                        spec_two_letter_code s = false) \/
             Raw.name r = None \/ Raw.name r ≫= Raw.common = None \/
             Raw.name r ≫= Raw.common = Some "" \/
             Raw.cca2 r = Some "XK" ->
     ~ In (simplify r) (simple data)) /\
  Permutation (simple data)
              (List.map simplify (List.filter (fun r => keep (simplify r)) data)).
Proof.
  assert (forall r, keep (simplify r) = false -> ~ In (simplify r) (simple data)) as Hout.
  { intros r Hr [_ Hk]%simple_In. congruence. }
  split_and!.
  - intros c [_ Hk]%simple_In. by apply keep_true.
  - intros r Hr. apply Hout, keep_false. exact Hr.
  - intros r Hr. apply Hout, keep_false. unfold simplify; simpl.
    destruct Hr as [Hr|[(s & Hr & Hs & Hno)|[Hr|[Hr|[Hr|Hr]]]]]; rewrite Hr; simpl.
    + left. by rewrite toUpperCase_empty.
    + left. destruct (truthy s); [by rewrite code_re_test_upper|].
      by rewrite toUpperCase_empty.
    + auto.
    + auto.
    + auto.
    + right; right. by rewrite toUpperCase_ascii.
  - apply simple_perm.
Qed.

(** The sample list whose first record has code AA and a name: the record
    passes the pattern and is kept, so the output has three records. *)
Lemma sample_AA_named_is_kept :
  simple (H := AsciiHost)
    [raw "AA" "Atlantis"; raw "US" "United States"; raw "FR" "France"]
  = [{| code := "AA"; name := "Atlantis" |}; FR; US] /\
  simple (H := AsciiHost)
    [raw "AA" "Atlantis"; raw "US" "United States"; raw "FR" "France"]
  <> [FR; US].
Proof. split; [by vm_compute|]. vm_compute. discriminate. Qed.

(** C2 (amended).  On a host that collates France before United States: for
    the list of three records with codes AA, US (United States) and FR
    (France), the step returns exactly [FR; US] when the AA record has no
    display name; when it has one, AA matches the pattern and is kept, and
    the output is the three records in some order. *)
Theorem sample_three_countries `{JsHost} :
  (localeCompare "France" "United States" < 0)%Z ->
  (forall aa, Raw.cca2 aa = Some "AA" -> or_else (Raw.name aa ≫= Raw.common) "" = "" ->
     simple [aa; raw "US" "United States"; raw "FR" "France"] = [FR; US]) /\
  (forall n, n <> "" ->
     Permutation (simple [raw "AA" n; raw "US" "United States"; raw "FR" "France"])
                 [{| code := "AA"; name := n |}; FR; US]).
Proof.
  intros Hlt.
  assert (simplify (raw "US" "United States") = US) as HUS.
  { unfold simplify, raw; simpl. by rewrite toUpperCase_ascii. }
  assert (simplify (raw "FR" "France") = FR) as HFR.
  { unfold simplify, raw; simpl. by rewrite toUpperCase_ascii. }
  assert ((localeCompare "United States" "France" <=? 0)%Z = false) as Hgt.
  { apply Z.leb_gt. pose proof (localeCompare_antisym "France" "United States"). lia. }
  split.
  - intros aa Hcode Hname. unfold simple. cbn [List.map].
    rewrite HUS, HFR. cbn [List.filter].
    replace (keep (simplify aa)) with false.
    2:{ symmetry. apply keep_false. right; left. exact Hname. }
    change (keep US) with true. change (keep FR) with true.
    cbn [sort sort_insert]. change (by_name US FR) with (localeCompare "United States" "France").
    by rewrite Hgt.
  - intros n Hn.
    assert (simplify (raw "AA" n) = {| code := "AA"; name := n |}) as HAA.
    { unfold simplify, raw; simpl. rewrite toUpperCase_ascii by done.
      unfold truthy. by destruct (String.eqb_spec n ""). }
    assert (keep {| code := "AA"; name := n |} = true) as Hk by by apply keep_true.
    rewrite simple_perm. cbn [List.filter].
    rewrite HUS, HFR, HAA, Hk. change (keep US) with true. change (keep FR) with true.
    cbn [List.map]. rewrite HUS, HFR, HAA.
    apply perm_skip, perm_swap.
Qed.

Lemma sample_three_countries_witness :
  (collate "France" "United States" < 0)%Z /\
  simple (H := AsciiHost) [raw_unnamed "AA"; raw "US" "United States"; raw "FR" "France"]
  = [FR; US].
Proof.
  split; [by vm_compute|].
  apply (sample_three_countries (H := AsciiHost)); by vm_compute.
Defined.

(** Two entries that share the code US both pass the filter: the output
    holds two distinct records with the same code. *)
Lemma duplicate_codes_are_kept :
  simple (H := AsciiHost) [raw "US" "USA"; raw "US" "United States"]
  = [US; {| code := "US"; name := "USA" |}] /\
  ~ NoDup (List.map code (simple (H := AsciiHost) [raw "US" "USA"; raw "US" "United States"])).
Proof.
  split; [by vm_compute|]. vm_compute.
  intros Hnd. apply NoDup_cons in Hnd as [Hnd _]. apply Hnd. by left.
Qed.

(** C4 (amended).  The step removes no duplicates: its output is, up to
    order, the list of the reshaped entries that pass the filter, each as
    often as it occurs there, and so are its codes.  Hence the output has at
    most one record per code if and only if no two entries that pass the
    filter share a normalised code. *)
Theorem codes_unique_when_valid_entries_are `{JsHost} (data : list Raw.t) :
  Permutation (simple data) (List.filter keep (List.map simplify data)) /\
  Permutation (List.map code (simple data))
              (List.map code (List.filter keep (List.map simplify data))) /\
  (NoDup (List.map code (simple data)) <->
   NoDup (List.map code (List.filter keep (List.map simplify data)))).
Proof.
  assert (Permutation (simple data) (List.filter keep (List.map simplify data))) as Hp.
  { unfold simple. apply sort_perm. }
  assert (Permutation (List.map code (simple data))
            (List.map code (List.filter keep (List.map simplify data)))) as Hc.
  { by apply Permutation_map. }
  split; [done|]. split; [done|]. by rewrite Hc.
Qed.

(** ** download *)

Ltac munfold := unfold mbind, M_bind, mret, M_ret, throw, try_catch in *.

Section ToolFacts.
Context `{JsHost} (net : network).

Lemma download_unfold (url dest : string) (w : world) :
  download net url dest w =
  match net (requests w) url with
  | None => (Throw (FetchRejected url), requested url w)
  | Some r =>
      if negb (ok r) && negb (is_opaque (type_ r))
      then (Throw (DownloadFailed url (status r)), requested url w)
      else (Ok tt, stored url dest r w)
  end.
Proof.
  unfold download, fetch. munfold.
  destruct (net (requests w) url) as [r|]; [|done].
  by destruct (negb (ok r) && negb (is_opaque (type_ r))).
Qed.

Lemma is_opaque_true (t : response_type) : is_opaque t = true <-> t = Opaque.
Proof. by destruct t. Qed.
End ToolFacts.

(** C5.  When fetch resolves to a response, download throws if and only if
    the response is neither ok nor opaque; otherwise, and in particular for
    an opaque response, the body is written to destPath. *)
Theorem download_throws_iff (net : network) (url dest : string)
    (w : world) (r : response) :
  net (requests w) url = Some r ->
  ((exists e, (download net url dest w).1 = Throw e) <->
     ok r = false /\ type_ r <> Opaque) /\
  (ok r = false /\ type_ r <> Opaque ->
     download net url dest w = (Throw (DownloadFailed url (status r)), requested url w)) /\
  (ok r = true \/ type_ r = Opaque ->
     download net url dest w = (Ok tt, stored url dest r w)) /\
  (type_ r = Opaque -> fs (download net url dest w).2 !! dest = Some (FBytes (arrayBuffer r))).
Proof.
  intros Hr. rewrite download_unfold, Hr.
  assert (is_opaque (type_ r) = false <-> type_ r <> Opaque) as Hno.
  { rewrite <- is_opaque_true. by destruct (is_opaque (type_ r)). }
  destruct (ok r) eqn:Hok; simpl.
  - split_and!; [|by intros [? _]|done|intros _; apply lookup_insert_eq].
    split; [by intros [e He]|by intros [? _]].
  - destruct (is_opaque (type_ r)) eqn:Hop; simpl.
    + apply is_opaque_true in Hop.
      split_and!; [|by intros [_ ?]|done|intros _; apply lookup_insert_eq].
      split; [by intros [e He]|by intros [_ ?]].
    + assert (type_ r <> Opaque) as Hne by by apply Hno.
      split_and!; [|done|by intros [?|?]|done].
      split; [done|eauto].
Qed.

Lemma download_throws_iff_witness :
  sample_net [] "https://flagsapi.com/FR/flat/512.png" = Some sample_opaque_response /\
  fs (download sample_net "https://flagsapi.com/FR/flat/512.png"
        "/app/assets/flags/fr.png" empty_world).2 !! "/app/assets/flags/fr.png"
  = Some (FBytes [Byte.x89]).
Proof.
  split; [reflexivity|].
  apply (download_throws_iff sample_net
           "https://flagsapi.com/FR/flat/512.png" "/app/assets/flags/fr.png"
           empty_world sample_opaque_response); reflexivity.
Defined.

(** ** Runs of jobs *)

Section JobsFacts.
Context `{JsHost} (net : network).

Lemma fetch_flag_unfold (url out : string) (warn : exn -> log) (cnt : nat * nat) (w : world) :
  fetch_flag net url out warn cnt w =
  if bool_decide (is_Some (fs w !! out)) then (Ok cnt, w)
  else match download net url out w with
       | (Ok _, w') => (Ok (S cnt.1, cnt.2), w')
       | (Throw e, w') =>
           (Ok (cnt.1, S cnt.2),
            {| fs := fs w'; requests := requests w'; console := console w' ++ [warn e] |})
       end.
Proof.
  unfold fetch_flag, fileExists, console_print. munfold.
  destruct (bool_decide (is_Some (fs w !! out))); simpl; [done|].
  by destruct (download net url out w) as [[[]|e] w'].
Qed.

Lemma jobs_post_nil (cnt : nat * nat) (w : world) : jobs_post net [] cnt w cnt w [] [].
Proof.
  split; simpl; try done; try lia.
  - by rewrite app_nil_r.
  - by rewrite app_nil_r.
  - intros p Hp [f Hf]. congruence.
Qed.

Lemma jobs_post_skip j js cnt w cnt' w' new warns :
  is_Some (fs w !! j_out j) ->
  jobs_post net js cnt w cnt' w' new warns ->
  jobs_post net (j :: js) cnt w cnt' w' new warns.
Proof.
  intros [f Hf] [Hreq Hcon Hfr Hrq Hcr Hpr Hcnt Hfail Hb Hw].
  split; try done.
  - intros u Hu. destruct (Hrq u Hu) as (j' & ? & ? & ?). exists j'. by split; [right|].
  - intros p Hp Hp'. destruct (Hcr p Hp Hp') as (j' & reqs & r & ? & ?).
    exists j', reqs, r. by split; [right|].
  - intros j' [<-|Hj']; [|by apply Hpr]. left. exists f. by apply Hfr.
  - simpl. lia.
  - intros l Hl. destruct (Hw l Hl) as (j' & e & ? & ?). exists j', e. by split; [right|].
Qed.

Lemma jobs_post_fail j e js cnt w w1 cnt' w' new warns :
  fs w !! j_out j = None ->
  fs w1 = fs w ->
  requests w1 = requests w ++ [j_url j] ->
  console w1 = console w ++ [j_warn j e] ->
  jobs_post net js (cnt.1, S cnt.2) w1 cnt' w' new warns ->
  jobs_post net (j :: js) cnt w cnt' w' (j_url j :: new) (j_warn j e :: warns).
Proof.
  intros Hj Hfs Hr1 Hc1 [Hreq Hcon Hfr Hrq Hcr Hpr Hcnt Hfail Hb Hw].
  rewrite Hfs in *. simpl in *.
  split; simpl.
  - by rewrite Hreq, Hr1, <- app_assoc.
  - by rewrite Hcon, Hc1, <- app_assoc.
  - done.
  - intros u [<-|Hu]; [by exists j; split; [left|]|].
    destruct (Hrq u Hu) as (j' & ? & ? & ?). exists j'. by split; [right|].
  - intros p Hp Hp'. destruct (Hcr p Hp Hp') as (j' & reqs & r & ? & ? & ? & ?).
    exists j', reqs, r. split; [by right|]. split; [done|]. by split; [right|].
  - intros j' [<-|Hj']; [right; by left|].
    destruct (Hpr j' Hj'); [by left|right; by right].
  - lia.
  - lia.
  - lia.
  - intros l [<-|Hl]; [exists j, e; by split; [left|]|].
    destruct (Hw l Hl) as (j' & e' & ? & ?). exists j', e'. by split; [right|].
Qed.

Lemma jobs_post_ok j reqs r js cnt w w1 cnt' w' new warns :
  fs w !! j_out j = None ->
  net reqs (j_url j) = Some r ->
  fs w1 = <[j_out j := FBytes (arrayBuffer r)]> (fs w) ->
  requests w1 = requests w ++ [j_url j] ->
  console w1 = console w ->
  jobs_post net js (S cnt.1, cnt.2) w1 cnt' w' new warns ->
  jobs_post net (j :: js) cnt w cnt' w' (j_url j :: new) warns.
Proof.
  intros Hj Hnet Hfs Hr1 Hc1 [Hreq Hcon Hfr Hrq Hcr Hpr Hcnt Hfail Hb Hw].
  assert (forall p f, fs w !! p = Some f -> fs w1 !! p = Some f) as Hsub.
  { intros p f Hp. rewrite Hfs, lookup_insert_ne; [done|]. congruence. }
  assert (fs w' !! j_out j = Some (FBytes (arrayBuffer r))) as Hmine.
  { apply Hfr. rewrite Hfs. apply lookup_insert_eq. }
  simpl in *. split; simpl.
  - by rewrite Hreq, Hr1, <- app_assoc.
  - by rewrite Hcon, Hc1.
  - intros p f Hp. by apply Hfr, Hsub.
  - intros u [<-|Hu]; [by exists j; split; [left|]|].
    destruct (Hrq u Hu) as (j' & ? & ? & Hnone). exists j'. split; [by right|].
    split; [done|]. destruct (fs w !! j_out j') as [f|] eqn:Hj'; [|done].
    apply Hsub in Hj'. congruence.
  - intros p Hp Hp'. destruct (decide (p = j_out j)) as [->|Hne].
    + exists j, reqs, r. split; [by left|]. split; [done|]. by split; [left|].
    + destruct (Hcr p) as (j' & reqs' & r' & ? & ? & ? & ?); [|done|].
      { rewrite Hfs, lookup_insert_ne; done. }
      exists j', reqs', r'. split; [by right|]. split; [done|]. by split; [right|].
  - intros j' [<-|Hj']; [left; eauto|].
    destruct (Hpr j' Hj'); [by left|right; by right].
  - lia.
  - lia.
  - lia.
  - intros l Hl. destruct (Hw l Hl) as (j' & e' & ? & ?). exists j', e'. by split; [right|].
Qed.

Lemma run_jobs_spec (js : list job) (cnt : nat * nat) (w : world) :
  exists cnt' w' new warns,
    run_jobs net js cnt w = (Ok cnt', w') /\ jobs_post net js cnt w cnt' w' new warns.
Proof.
  revert cnt w. induction js as [|j js IH]; intros cnt w.
  { exists cnt, w, [], []. split; [done|]. apply jobs_post_nil. }
  cbn [run_jobs]. unfold mbind, M_bind. rewrite fetch_flag_unfold.
  destruct (bool_decide (is_Some (fs w !! j_out j))) eqn:Hex.
  { apply bool_decide_eq_true in Hex.
    destruct (IH cnt w) as (cnt' & w' & new & warns & Hrun & Hpost).
    exists cnt', w', new, warns. split; [done|]. by apply jobs_post_skip. }
  apply bool_decide_eq_false in Hex.
  assert (fs w !! j_out j = None) as Hj.
  { destruct (fs w !! j_out j) eqn:E; [|done]. exfalso. apply Hex. eauto. }
  rewrite download_unfold.
  destruct (net (requests w) (j_url j)) as [r|] eqn:Hnet.
  - destruct (negb (ok r) && negb (is_opaque (type_ r))).
    + match goal with |- context [run_jobs net js ?c ?w1] =>
        destruct (IH c w1) as (cnt' & w' & new & warns & Hrun & Hpost) end.
      exists cnt', w', (j_url j :: new), (j_warn j (DownloadFailed (j_url j) (status r)) :: warns).
      split; [done|].
      refine (jobs_post_fail j _ js cnt w _ cnt' w' new warns Hj _ _ _ Hpost); reflexivity.
    + match goal with |- context [run_jobs net js ?c ?w1] =>
        destruct (IH c w1) as (cnt' & w' & new & warns & Hrun & Hpost) end.
      exists cnt', w', (j_url j :: new), warns.
      split; [done|].
      refine (jobs_post_ok j _ r js cnt w _ cnt' w' new warns Hj Hnet _ _ _ Hpost); reflexivity.
  - match goal with |- context [run_jobs net js ?c ?w1] =>
      destruct (IH c w1) as (cnt' & w' & new & warns & Hrun & Hpost) end.
    exists cnt', w', (j_url j :: new), (j_warn j (FetchRejected (j_url j)) :: warns).
    split; [done|].
      refine (jobs_post_fail j _ js cnt w _ cnt' w' new warns Hj _ _ _ Hpost); reflexivity.
Qed.
End JobsFacts.

(** ** downloadFlags as a run of jobs *)

Section FlagsFacts.
Context `{JsHost} (net : network).

Lemma run_jobs_app (js1 js2 : list job) (cnt : nat * nat) (w : world) :
  run_jobs net (js1 ++ js2) cnt w = (c ← run_jobs net js1 cnt; run_jobs net js2 c) w.
Proof.
  revert cnt w. induction js1 as [|j js1 IH]; intros cnt w; [done|].
  cbn [app run_jobs]. unfold mbind, M_bind in *.
  destruct (fetch_flag net (j_url j) (j_out j) (j_warn j) cnt w) as [[c1|e] w1]; [|done].
  apply IH.
Qed.

Lemma flags_loop_jobs (dlSvg dlPng : bool) (codes : list string) (cnt : nat * nat) (w : world) :
  flags_loop net dlSvg dlPng codes cnt w = run_jobs net (jobs_of dlSvg dlPng codes) cnt w.
Proof.
  revert cnt w. induction codes as [|code codes IH]; intros cnt w; [done|].
  cbn [flags_loop jobs_of flat_map]. rewrite run_jobs_app.
  unfold flag_step, mbind, M_bind, mret, M_ret.
  destruct dlSvg, dlPng; cbn [app run_jobs svg_job png_job j_url j_out j_warn];
    unfold mbind, M_bind, mret, M_ret;
    repeat match goal with
           | |- context [fetch_flag net ?u ?o ?k ?c ?w0] =>
               destruct (fetch_flag net u o k c w0) as [[?|?] ?]
           end; try done; apply IH.
Qed.

Lemma jobs_of_In (dlSvg dlPng : bool) (codes : list string) (j : job) :
  In j (jobs_of dlSvg dlPng codes) <->
  exists code, In code codes /\
    ((dlSvg = true /\ j = svg_job code) \/ (dlPng = true /\ j = png_job code)).
Proof.
  unfold jobs_of. rewrite in_flat_map. split.
  - intros (code & Hc & Hj). exists code. split; [done|].
    apply in_app_or in Hj as [Hj|Hj]; [left|right].
    + destruct dlSvg; [|done]. by destruct Hj as [<-|[]].
    + destruct dlPng; [|done]. by destruct Hj as [<-|[]].
  - intros (code & Hc & [[-> ->]|[-> ->]]); exists code; (split; [done|]);
      apply in_or_app; [left|right]; by left.
Qed.

Lemma jobs_of_length (dlSvg dlPng : bool) (codes : list string) :
  length (jobs_of dlSvg dlPng codes) <= 2 * length codes.
Proof.
  induction codes as [|code codes IH]; [done|].
  cbn [jobs_of flat_map]. fold (jobs_of dlSvg dlPng codes).
  rewrite !length_app. destruct dlSvg, dlPng; simpl in *; lia.
Qed.

Lemma downloadFlags_spec (codes : list string) (o : opts) (w : world) :
  exists cnt' w1 new warns,
    downloadFlags net codes o w =
      (Ok tt, {| fs := fs w1; requests := requests w1;
                 console := console w1 ++ [LogFlags cnt'.1 cnt'.2] |}) /\
    jobs_post net (jobs_of (svg o || both o) (png o || both o) (capped (limit o) codes))
      (0, 0) w cnt' w1 new warns.
Proof.
  destruct (run_jobs_spec net
              (jobs_of (svg o || both o) (png o || both o) (capped (limit o) codes))
              (0, 0) w) as (cnt' & w1 & new & warns & Hrun & Hpost).
  exists cnt', w1, new, warns. split; [|done].
  unfold downloadFlags, ensureDir, console_print. munfold.
  by rewrite flags_loop_jobs, Hrun.
Qed.

(** *** Shapes of the URLs *)

Lemma append_length (s t : string) :
  String.length (s +:+ t) = String.length s + String.length t.
Proof. induction s as [|c s IH]; simpl; [done|]. by rewrite IH. Qed.

Lemma append_inv_tail (s1 s2 t : string) : s1 +:+ t = s2 +:+ t -> s1 = s2.
Proof.
  revert s2. induction s1 as [|c s1 IH]; intros [|d s2] Heq; simpl in *.
  - done.
  - exfalso. apply (f_equal String.length) in Heq.
    rewrite !append_length in Heq. simpl in Heq. lia.
  - exfalso. apply (f_equal String.length) in Heq.
    rewrite !append_length in Heq. simpl in Heq. lia.
  - injection Heq as -> Heq. f_equal. by apply IH.
Qed.

Lemma svgUrl_eq (code : string) :
  svgUrl code = "https://flagcdn.com/" +:+ toLowerCase code +:+ ".svg".
Proof. reflexivity. Qed.

Lemma pngUrl_eq (code : string) :
  pngUrl_default code = "https://flagsapi.com/" +:+ code +:+ "/flat/512.png".
Proof. reflexivity. Qed.

Lemma svgUrl_same_lower (a b : string) : svgUrl a = svgUrl b -> toLowerCase a = toLowerCase b.
Proof.
  rewrite !svgUrl_eq. intros Heq. apply String.app_inj in Heq.
  by apply append_inv_tail in Heq.
Qed.

Lemma pngUrl_inj (a b : string) : pngUrl_default a = pngUrl_default b -> a = b.
Proof.
  rewrite !pngUrl_eq. intros Heq. apply String.app_inj in Heq.
  by apply append_inv_tail in Heq.
Qed.

Lemma svgUrl_not_pngUrl (a b : string) : svgUrl a <> pngUrl_default b.
Proof. rewrite svgUrl_eq, pngUrl_eq. simpl. discriminate. Qed.

Lemma lower_of_code (a b : ascii) :
  is_AZ a = true -> is_AZ b = true ->
  toLowerCase (String a (String b "")) = String (ascii_lower a) (String (ascii_lower b) "") /\
  is_az (ascii_lower a) = true /\ is_az (ascii_lower b) = true.
Proof.
  intros Ha Hb.
  assert (forall c, is_AZ c = true -> is_ascii_unit c = true /\ is_az (ascii_lower c) = true) as Hc.
  { intros c. destruct c as [[] [] [] [] [] [] [] []]; vm_compute; (discriminate || done). }
  destruct (Hc a Ha) as [Ha1 Ha2], (Hc b Hb) as [Hb1 Hb2].
  split; [|done]. rewrite toLowerCase_ascii; [done|].
  unfold all_ascii; simpl. by rewrite Ha1, Hb1.
Qed.
End FlagsFacts.

Section RunFacts.
Context `{JsHost} (net : network).

(** Every code of the list is processed: afterwards, for each enabled
    format, the file exists or its URL was requested. *)
Lemma downloadFlags_processes (codes : list string) (o : opts) (w : world) :
  exists w' new,
    downloadFlags net codes o w = (Ok tt, w') /\
    requests w' = requests w ++ new /\
    forall code, In code (capped (limit o) codes) ->
      (svg o || both o = true ->
         is_Some (fs w' !! path_join FLAGS_DIR (toLowerCase code +:+ ".svg")) \/
         In (svgUrl code) new) /\
      (png o || both o = true ->
         is_Some (fs w' !! path_join FLAGS_DIR (toLowerCase code +:+ ".png")) \/
         In (pngUrl_default code) new).
Proof.
  destruct (downloadFlags_spec net codes o w) as (cnt' & w1 & new & warns & Hrun & Hpost).
  eexists _, new. split; [exact Hrun|]. simpl. split; [apply Hpost|].
  intros code Hcode. split; intros Hen.
  - apply (post_processed _ _ _ _ _ _ _ _ Hpost (svg_job code)), jobs_of_In.
    exists code. split; [done|]. by left.
  - apply (post_processed _ _ _ _ _ _ _ _ Hpost (png_job code)), jobs_of_In.
    exists code. split; [done|]. by right.
Qed.

Lemma split_no_sep (c : ascii) (s : string) : includes c s = false -> split c s = [s].
Proof.
  induction s as [|d s IH]; simpl; [done|].
  destruct (Ascii.eqb c d); [done|]. intros Hs. by rewrite IH.
Qed.

Lemma split_arg_limit (s : string) :
  includes "=" s = false -> split_arg ("--limit=" +:+ s) = ("--limit", Some s).
Proof. intros Hs. unfold split_arg. simpl. by rewrite split_no_sep. Qed.
End RunFacts.

(** C8.  With a limit N > 0 a run of downloadFlags is the run on the first N
    codes: every request it makes is for one of them.  With limit 0 the whole
    list is processed: for every code and every enabled format the file
    exists afterwards or its URL was requested.  [--limit N] and [--limit=N]
    set the limit to [Number(N) || 0]. *)
Theorem limit_caps_the_codes `{JsHost} (net : network) :
  (forall codes o w, (0 < limit o)%Z ->
     downloadFlags net codes o w =
       downloadFlags net (take (Z.to_nat (limit o)) codes) (set_limit 0 o) w /\
     exists w' new,
       downloadFlags net codes o w = (Ok tt, w') /\
       requests w' = requests w ++ new /\
       forall u, In u new ->
         exists code, In code (take (Z.to_nat (limit o)) codes) /\
                      (u = svgUrl code \/ u = pngUrl_default code)) /\
  (forall codes o w, limit o = 0%Z ->
     exists w' new,
       downloadFlags net codes o w = (Ok tt, w') /\
       requests w' = requests w ++ new /\
       forall code, In code codes ->
         (svg o || both o = true ->
            is_Some (fs w' !! path_join FLAGS_DIR (toLowerCase code +:+ ".svg")) \/
            In (svgUrl code) new) /\
         (png o || both o = true ->
            is_Some (fs w' !! path_join FLAGS_DIR (toLowerCase code +:+ ".png")) \/
            In (pngUrl_default code) new)) /\
  (forall s, limit (parseArgs ["--limit"; s]) = (if truthy s then number_or_0 s else 0%Z)) /\
  (forall s, includes "=" s = false ->
     limit (parseArgs ["--limit=" +:+ s]) = number_or_0 s).
Proof.
  split_and!.
  - intros codes o w Hlim.
    assert (capped (limit o) codes = take (Z.to_nat (limit o)) codes) as Hcap.
    { unfold capped. by rewrite (proj2 (Z.ltb_lt _ _) Hlim). }
    split; [unfold downloadFlags; by rewrite Hcap|].
    destruct (downloadFlags_spec net codes o w) as (cnt' & w1 & new & warns & Hrun & Hpost).
    eexists _, new. split; [exact Hrun|]. simpl.
    split; [apply Hpost|]. intros u Hu.
    destruct (post_requested _ _ _ _ _ _ _ _ Hpost u Hu) as (j & Hj & <- & _).
    rewrite Hcap in Hj.
    apply jobs_of_In in Hj as (code & Hcode & [[_ ->]|[_ ->]]);
      exists code; (split; [done|]); [by left|by right].
  - intros codes o w Hlim.
    destruct (downloadFlags_processes net codes o w)
      as (w' & new & Hrun & Hreq & Hall).
    exists w', new. split; [done|]. split; [done|].
    intros code Hcode. apply Hall. unfold capped. by rewrite Hlim.
  - intros s. unfold parseArgs. cbn. by destruct (truthy s).
  - intros s Hs. unfold parseArgs. cbn [parse_loop]. unfold parse_arg.
    rewrite split_arg_limit by done. by cbn.
Qed.

Section MainFacts.
Context `{JsHost} (net : network).

(** A run of main leaves every existing file other than the countries file
    as it was. *)
Lemma main_frame (args : list string) (w : world) (p : string) (f : file) :
  p <> COUNTRIES_JSON -> fs w !! p = Some f -> fs (main net args w).2 !! p = Some f.
Proof.
  intros Hp Hf. unfold main, fetchCountries, fetch. munfold.
  destruct (net (requests w) COUNTRIES_URL) as [r|]; [|done].
  destruct (ok r); simpl; [|done].
  destruct (json_ r) as [data|]; [|done].
  set (w1 := {| fs := fs w; requests := requests w ++ [COUNTRIES_URL];
                console := console w |}).
  assert (forall w2, fs w2 !! p = Some f ->
            fs ((if negb (noFlags (parseArgs args)) &&
                    (svg (parseArgs args) || png (parseArgs args) || both (parseArgs args))
                 then downloadFlags net (List.map code (simple data)) (parseArgs args)
                 else mret ()) w2).2 !! p = Some f) as Hflags.
  { intros w2 Hw2. destruct (_ && _); [|done].
    destruct (downloadFlags_spec net (List.map code (simple data)) (parseArgs args) w2)
      as (cnt' & w3 & new & warns & -> & Hpost).
    simpl. by apply Hpost. }
  destruct (json (parseArgs args)).
  - unfold saveCountriesJson, ensureDir, writeFile, console_print. munfold.
    apply Hflags. simpl. by rewrite lookup_insert_ne.
  - by apply Hflags.
Qed.
End MainFacts.

(** C9.  A flag whose destination file exists is skipped without a request.
    A run of downloadFlags leaves every existing file as it was, and requests
    neither the vector URL of a code whose [.svg] file exists nor the raster
    URL of a code whose [.png] file exists.  The same holds for a second run
    on the resulting files: what the first run wrote is not written again.
    A run of the whole tool leaves every existing file other than the
    countries file as it was. *)
Theorem existing_flag_files_are_skipped `{JsHost} (net : network) :
  (forall url out warn cnt w,
     is_Some (fs w !! out) -> fetch_flag net url out warn cnt w = (Ok cnt, w)) /\
  (forall codes o w,
     exists w' new,
       downloadFlags net codes o w = (Ok tt, w') /\
       requests w' = requests w ++ new /\
       (forall p f, fs w !! p = Some f -> fs w' !! p = Some f) /\
       (forall code,
          is_Some (fs w !! path_join FLAGS_DIR (toLowerCase code +:+ ".svg")) ->
          ~ In (svgUrl code) new) /\
       (forall code,
          is_Some (fs w !! path_join FLAGS_DIR (toLowerCase code +:+ ".png")) ->
          ~ In (pngUrl_default code) new) /\
       exists w'' new',
         downloadFlags net codes o w' = (Ok tt, w'') /\
         requests w'' = requests w' ++ new' /\
         (forall p f, fs w' !! p = Some f -> fs w'' !! p = Some f)) /\
  (forall args w p f,
     p <> COUNTRIES_JSON -> fs w !! p = Some f -> fs (main net args w).2 !! p = Some f).
Proof.
  split; [|split; [|apply main_frame]].
  - intros url out warn cnt w Hex. rewrite fetch_flag_unfold.
    by rewrite bool_decide_eq_true_2.
  - intros codes o w.
    destruct (downloadFlags_spec net codes o w) as (cnt' & w1 & new & warns & Hrun & Hpost).
    eexists _, new. split; [exact Hrun|]. simpl.
    split; [apply Hpost|]. split; [apply Hpost|]. split; [|split].
    + intros code [f Hf] Hu.
      destruct (post_requested _ _ _ _ _ _ _ _ Hpost _ Hu) as (j & Hj & Hurl & Hnone).
      apply jobs_of_In in Hj as (code' & _ & [[_ ->]|[_ ->]]); simpl in *.
      * apply svgUrl_same_lower in Hurl. rewrite Hurl in Hnone. congruence.
      * symmetry in Hurl. by apply svgUrl_not_pngUrl in Hurl.
    + intros code [f Hf] Hu.
      destruct (post_requested _ _ _ _ _ _ _ _ Hpost _ Hu) as (j & Hj & Hurl & Hnone).
      apply jobs_of_In in Hj as (code' & _ & [[_ ->]|[_ ->]]); simpl in *.
      * by apply svgUrl_not_pngUrl in Hurl.
      * apply pngUrl_inj in Hurl as ->. congruence.
    + match goal with |- context [downloadFlags net codes o ?w2] =>
        destruct (downloadFlags_spec net codes o w2)
          as (cnt2 & w3 & new2 & warns2 & Hrun2 & Hpost2) end.
      eexists _, new2. split; [exact Hrun2|]. simpl.
      split; [apply Hpost2|]. apply Hpost2.
Qed.

(** C3.  When the country list request resolves to an ok response whose body
    parses to [data], fetchCountries returns the reshaped and filtered list:
    records with the two fields code and name, in ascending order of name.
    saveCountriesJson writes exactly the list it is given to the countries
    file, and after main (with JSON output enabled) that file holds exactly
    this sorted list. *)
Theorem countries_saved_sorted `{JsHost} (net : network) (w : world)
    (r : response) (data : list Raw.t) :
  net (requests w) COUNTRIES_URL = Some r -> ok r = true -> json_ r = Some data ->
  fetchCountries net w = (Ok (simple data), requested COUNTRIES_URL w) /\
  StronglySorted (fun a b => localeCompare (name a) (name b) <= 0)%Z (simple data) /\
  (forall items w0,
     (saveCountriesJson items w0).1 = Ok tt /\
     fs (saveCountriesJson items w0).2 !! COUNTRIES_JSON = Some (FJson items)) /\
  (forall args, json (parseArgs args) = true ->
     exists w', main net args w = (Ok tt, w') /\
                fs w' !! COUNTRIES_JSON = Some (FJson (simple data))).
Proof.
  intros Hnet Hok Hjson.
  assert (fetchCountries net w = (Ok (simple data), requested COUNTRIES_URL w)) as Hfc.
  { unfold fetchCountries, fetch. munfold. by rewrite Hnet, Hok, Hjson. }
  assert (forall items w0,
            (saveCountriesJson items w0).1 = Ok tt /\
            fs (saveCountriesJson items w0).2 !! COUNTRIES_JSON = Some (FJson items)) as Hsave.
  { intros items w0. unfold saveCountriesJson, ensureDir, writeFile, console_print.
    munfold. simpl. split; [done|]. apply lookup_insert_eq. }
  split; [done|]. split; [apply simple_sorted|]. split; [done|].
  intros args Hj. unfold main. munfold. rewrite Hfc, Hj.
  destruct (Hsave (simple data) (requested COUNTRIES_URL w)) as [Hs1 Hs2].
  destruct (saveCountriesJson (simple data) (requested COUNTRIES_URL w)) as [[[]|e] w2];
    simpl in *; [|done].
  destruct (negb (noFlags (parseArgs args)) &&
            (svg (parseArgs args) || png (parseArgs args) || both (parseArgs args))).
  - destruct (downloadFlags_spec net (List.map code (simple data)) (parseArgs args) w2)
      as (cnt' & w3 & new & warns & Hrun & Hpost).
    eexists. split; [exact Hrun|]. simpl. by apply Hpost.
  - by exists w2.
Qed.

Lemma countries_saved_sorted_witness :
  sample_net (requests empty_world) COUNTRIES_URL = Some sample_countries_response /\
  ok sample_countries_response = true /\
  json_ sample_countries_response = Some [raw "US" "United States"; raw "FR" "France"] /\
  fetchCountries (H := AsciiHost) sample_net empty_world
  = (Ok [FR; US], requested COUNTRIES_URL empty_world).
Proof.
  split_and!; [reflexivity..|].
  apply (countries_saved_sorted (H := AsciiHost) sample_net empty_world
           sample_countries_response [raw "US" "United States"; raw "FR" "France"]);
    reflexivity.
Defined.

(** ** parseArgs *)

Section ParseFacts.
Context `{JsHost}.

Lemma split_head_no_sep (c : ascii) (s : string) :
  exists k rest, split c s = k :: rest /\ includes c k = false.
Proof.
  induction s as [|d s (k & rest & Hs & Hk)]; simpl; [by eexists _, _|].
  destruct (Ascii.eqb c d) eqn:Hcd; [by eexists _, _|].
  rewrite Hs. eexists _, _. split; [done|]. simpl. by rewrite Hcd.
Qed.

Lemma split_two_pieces (c : ascii) (s : string) :
  includes c s = true -> exists k v rest, split c s = k :: v :: rest.
Proof.
  induction s as [|d s IH]; simpl; [done|].
  destruct (Ascii.eqb c d).
  - intros _. destruct (split_head_no_sep c s) as (k & rest & -> & _). by eexists _, _, _.
  - intros Hs. destruct (IH Hs) as (k & v & rest & ->). by eexists _, _, _.
Qed.

(** The name of an option never contains [=]. *)
Lemma key_has_no_eq (a : string) : includes "=" (split_arg a).1 = false.
Proof.
  unfold split_arg. destruct (includes "=" a) eqn:Ha; [|done].
  destruct (split_head_no_sep "=" a) as (k & rest & -> & Hk).
  by destruct rest.
Qed.

(** So the branch [a === '--only=json'] is never taken. *)
Lemma key_is_not_only_json (a : string) : String.eqb (split_arg a).1 "--only=json" = false.
Proof.
  apply String.eqb_neq. intros Heq. pose proof (key_has_no_eq a) as Hk.
  rewrite Heq in Hk. discriminate.
Qed.

Lemma parse_arg_consumed (a : string) (next : option string) (o : opts) :
  (parse_arg a next o).2 = true -> a = "--limit".
Proof.
  unfold parse_arg, split_arg. destruct (includes "=" a) eqn:Ha.
  - destruct (split_two_pieces "=" a Ha) as (k & v & rest & ->).
    by repeat (match goal with |- context [String.eqb ?x ?y] => destruct (String.eqb x y) end).
  - repeat (match goal with
            | |- context [String.eqb a ?y] => destruct (String.eqb_spec a y)
            end); try done.
Qed.

Lemma parse_loop_cons (a : string) (rest : list string) (o : opts) :
  a <> "--limit" -> parse_loop (a :: rest) o = parse_loop rest (parse_arg a (head rest) o).1.
Proof.
  intros Ha. cbn [parse_loop].
  pose proof (parse_arg_consumed a (head rest) o) as Hc.
  destruct (parse_arg a (head rest) o) as [o' [|]]; simpl in *; [by destruct Ha; auto|].
  by destruct rest.
Qed.

(** An invariant of the loop: [P] holds at the end if it holds at the start
    and every turn on an argument satisfying [Q] keeps it. *)
Lemma parse_loop_inv (P : opts -> Prop) (Q : string -> Prop) :
  (forall a next o, Q a -> P o -> P (parse_arg a next o).1) ->
  forall args o, Forall Q args -> P o -> P (parse_loop args o).
Proof.
  intros Hstep args.
  assert (forall n args o, length args <= n -> Forall Q args -> P o -> P (parse_loop args o))
    as Hn; [|intros o; by apply (Hn (length args))].
  clear args. induction n as [|n IH]; intros [|a rest] o Hlen HQ Ho; simpl in *;
    try done; try lia.
  apply Forall_cons in HQ as [Ha Hrest].
  pose proof (Hstep a (head rest) o Ha Ho) as Ho'.
  destruct (parse_arg a (head rest) o) as [o' consumed]; simpl in *.
  destruct consumed, rest as [|b rest']; try (apply IH; [simpl in *; lia|done|done]).
  apply Forall_cons in Hrest as [_ Hrest']. apply IH; [simpl in *; lia|done|done].
Qed.
End ParseFacts.

Section ParseArgsFacts.
Context `{JsHost}.

Lemma parse_arg_noFlags (a : string) (next : option string) (o : opts) :
  noFlags o = true -> noFlags (parse_arg a next o).1 = true.
Proof.
  intros Ho. unfold parse_arg. destruct (split_arg a) as [k v].
  repeat (match goal with |- context [String.eqb k ?y] => destruct (String.eqb k y) end);
    try done.
  by destruct v.
Qed.

Lemma parse_arg_keeps_flags_off (a : string) (next : option string) (o : opts) :
  ~ In (split_arg a).1 ["--no-flags"; "--svg"; "--png"; "--both"] ->
  svg o = false /\ png o = false /\ both o = false /\ noFlags o = false ->
  let o' := (parse_arg a next o).1 in
  svg o' = false /\ png o' = false /\ both o' = false /\ noFlags o' = false.
Proof.
  intros Hk Ho. unfold parse_arg. pose proof (key_is_not_only_json a) as Hdead.
  destruct (split_arg a) as [k v]. simpl in Hk, Hdead. rewrite Hdead.
  repeat (match goal with
          | |- context [String.eqb k ?y] => destruct (String.eqb_spec k y) as [->|?]
          end); simpl in *; try tauto.
  by destruct v.
Qed.

Lemma parse_arg_keeps_svg_png_both (a : string) (next : option string) (o : opts) :
  ~ In (split_arg a).1 ["--svg"; "--png"; "--both"] ->
  svg o = false /\ png o = false /\ both o = false ->
  let o' := (parse_arg a next o).1 in
  svg o' = false /\ png o' = false /\ both o' = false.
Proof.
  intros Hk Ho. unfold parse_arg. destruct (split_arg a) as [k v]. simpl in Hk.
  repeat (match goal with
          | |- context [String.eqb k ?y] => destruct (String.eqb_spec k y) as [->|?]
          end); simpl in *; try tauto.
  by destruct v.
Qed.

Lemma parse_arg_keeps_json (a : string) (next : option string) (o : opts) :
  ~ In (split_arg a).1 ["--no-json"; "--json"] ->
  json o = true -> json (parse_arg a next o).1 = true.
Proof.
  intros Hk Ho. unfold parse_arg. destruct (split_arg a) as [k v]. simpl in Hk.
  repeat (match goal with
          | |- context [String.eqb k ?y] => destruct (String.eqb_spec k y) as [->|?]
          end); simpl in *; try tauto.
  by destruct v.
Qed.

(** With [noFlags] set, main makes the request for the country list and no
    other. *)
Lemma main_without_flags (net : network) (args : list string) (w : world) :
  noFlags (parseArgs args) = true ->
  exists res w', main net args w = (res, w') /\ requests w' = requests w ++ [COUNTRIES_URL].
Proof.
  intros Hnf. unfold main, fetchCountries, fetch, saveCountriesJson, ensureDir,
    writeFile, console_print. munfold. rewrite Hnf. simpl.
  destruct (net (requests w) COUNTRIES_URL) as [r|]; [|by eexists _, _].
  destruct (ok r); simpl; [|by eexists _, _].
  destruct (json_ r); [|by eexists _, _].
  destruct (json (parseArgs args)); by eexists _, _.
Qed.
End ParseArgsFacts.

Section ExaminedFacts.
Context `{JsHost}.

Lemma parse_arg_limit (next : option string) (o : opts) :
  (parse_arg "--limit" next o).2 = true.
Proof. reflexivity. Qed.

(** [++i] runs exactly on a bare [--limit]. *)
Lemma parse_arg_consumed_iff (a : string) (next : option string) (o : opts) :
  (parse_arg a next o).2 = String.eqb a "--limit".
Proof.
  destruct (String.eqb_spec a "--limit") as [->|Ha]; [apply parse_arg_limit|].
  pose proof (parse_arg_consumed a next o) as Hc.
  destruct (parse_arg a next o).2; [|done]. by destruct Ha; auto.
Qed.

(** What the loop does after its turn on the first argument. *)
Lemma parse_loop_examined (a : string) (rest : list string) (o : opts) :
  exists rest',
    parse_loop (a :: rest) o = parse_loop rest' (parse_arg a (head rest) o).1 /\
    examined (a :: rest) = a :: examined rest' /\ length rest' <= length rest.
Proof.
  cbn [parse_loop examined].
  pose proof (parse_arg_consumed_iff a (head rest) o) as Hc.
  destruct (parse_arg a (head rest) o) as [o' consumed]. simpl in *. subst consumed.
  destruct (String.eqb a "--limit"), rest as [|b rest']; eexists; split_and!; try done.
  simpl. lia.
Qed.

(** An invariant of the loop over the arguments it reads as options. *)
Lemma parse_loop_examined_inv (P : opts -> Prop) (Q : string -> Prop) :
  (forall a next o, Q a -> P o -> P (parse_arg a next o).1) ->
  forall args o, Forall Q (examined args) -> P o -> P (parse_loop args o).
Proof.
  intros Hstep args.
  assert (forall n args o, length args <= n -> Forall Q (examined args) -> P o ->
                           P (parse_loop args o))
    as Hn; [|intros o; by apply (Hn (length args))].
  clear args. induction n as [|n IH]; intros [|a rest] o Hlen HQ Ho; simpl in Hlen;
    try done; try lia.
  destruct (parse_loop_examined a rest o) as (rest' & -> & He & Hl).
  rewrite He in HQ. apply Forall_cons in HQ as [Ha Hrest].
  apply IH; [lia|done|]. by apply Hstep.
Qed.

Lemma parse_loop_noFlags (args : list string) (o : opts) :
  noFlags o = true -> noFlags (parse_loop args o) = true.
Proof.
  intros Ho. apply (parse_loop_inv (fun o => noFlags o = true) (fun _ => True)); [|by apply Forall_forall|done].
  intros a next o' _. apply parse_arg_noFlags.
Qed.

Lemma parse_loop_no_flags_read (args : list string) (o : opts) :
  In "--no-flags" (examined args) -> noFlags (parse_loop args o) = true.
Proof.
  assert (forall n args o, length args <= n -> In "--no-flags" (examined args) ->
                           noFlags (parse_loop args o) = true)
    as Hn; [|by apply (Hn (length args))].
  clear args o. induction n as [|n IH]; intros [|a rest] o Hlen Hin; simpl in Hlen;
    try done; try lia.
  destruct (parse_loop_examined a rest o) as (rest' & -> & He & Hl).
  rewrite He in Hin. destruct Hin as [->|Hin]; [|apply IH; [lia|done]].
  by apply parse_loop_noFlags.
Qed.

Lemma parse_loop_after_no_flags (args epre epost : list string) (o : opts) :
  examined args = epre ++ "--no-flags" :: epost ->
  Forall (fun a => ~ In (split_arg a).1 ["--svg"; "--png"; "--both"]) epost ->
  svg (parse_loop args o) = false /\ png (parse_loop args o) = false /\
  both (parse_loop args o) = false.
Proof.
  intros He Hpost. revert He.
  assert (forall n args o epre, length args <= n ->
            examined args = epre ++ "--no-flags" :: epost ->
            svg (parse_loop args o) = false /\ png (parse_loop args o) = false /\
            both (parse_loop args o) = false)
    as Hn; [|by apply (Hn (length args))].
  clear args o epre.
  induction n as [|n IH]; intros [|a rest] o epre Hlen He; simpl in Hlen; try lia;
    try (by destruct epre).
  destruct (parse_loop_examined a rest o) as (rest' & -> & He' & Hl).
  rewrite He' in He. destruct epre as [|e epre]; simpl in He.
  - injection He as -> He.
    apply (parse_loop_examined_inv
             (fun o => svg o = false /\ png o = false /\ both o = false)
             _ parse_arg_keeps_svg_png_both); [by rewrite He|done].
  - injection He as -> He. by apply (IH _ _ epre); [lia|].
Qed.
End ExaminedFacts.

(** [--no-flags] followed by [--svg] returns svg=true (with noFlags=true);
    [--no-json] returns json=false although none of --no-flags, --svg,
    --png, --both is given; and [--only=json] returns svg=true with
    noFlags=false. *)
Lemma no_flags_then_svg_sets_svg :
  svg (parseArgs (H := AsciiHost) ["--no-flags"; "--svg"]) = true /\
  json (parseArgs (H := AsciiHost) ["--no-json"]) = false /\
  svg (parseArgs (H := AsciiHost) ["--only=json"]) = true /\
  noFlags (parseArgs (H := AsciiHost) ["--only=json"]) = false.
Proof. by vm_compute. Qed.

(** C10 (amended).  The arguments read as options are all the arguments but
    those taken as the value of a bare --limit.  parseArgs defaults to
    SVG-only with JSON enabled: with no arguments the options are svg=true,
    json=true and the rest off; if no argument read as an option names
    --no-flags, --svg, --png or --both then svg=true (png, both, noFlags
    false), and json=true if none names --no-json or --json.  When
    --no-flags is read as an option, noFlags is true whatever else is given,
    and svg, png and both are all false if no --svg, --png or --both is read
    as an option after it.  With noFlags true, main makes the request for
    the country list and no flag download at all. *)
Theorem parseArgs_defaults_and_no_flags `{JsHost} :
  parseArgs [] = {| svg := true; png := false; json := true; both := false;
                    limit := 0%Z; noFlags := false |} /\
  (forall args,
     Forall (fun a => ~ In (split_arg a).1 ["--no-flags"; "--svg"; "--png"; "--both"])
            (examined args) ->
     let o := parseArgs args in
     svg o = true /\ png o = false /\ both o = false /\ noFlags o = false) /\
  (forall args,
     Forall (fun a => ~ In (split_arg a).1 ["--no-json"; "--json"]) (examined args) ->
     json (parseArgs args) = true) /\
  (forall args, In "--no-flags" (examined args) -> noFlags (parseArgs args) = true) /\
  (forall args epre epost,
     examined args = epre ++ "--no-flags" :: epost ->
     Forall (fun a => ~ In (split_arg a).1 ["--svg"; "--png"; "--both"]) epost ->
     let o := parseArgs args in
     svg o = false /\ png o = false /\ both o = false /\ noFlags o = true) /\
  (forall net args w, noFlags (parseArgs args) = true ->
     exists res w', main net args w = (res, w') /\
                    requests w' = requests w ++ [COUNTRIES_URL]).
Proof.
  split_and!.
  - reflexivity.
  - intros args Hargs o. subst o. unfold parseArgs.
    match goal with |- context [parse_loop args ?o0] => set (init := o0) end.
    assert (svg (parse_loop args init) = false /\ png (parse_loop args init) = false /\
            both (parse_loop args init) = false /\ noFlags (parse_loop args init) = false)
      as (Hs & Hp & Hb & Hn).
    { by apply (parse_loop_examined_inv
                  (fun o => svg o = false /\ png o = false /\ both o = false /\
                            noFlags o = false)
                  _ parse_arg_keeps_flags_off). }
    by rewrite Hs, Hp, Hb, Hn.
  - intros args Hargs. unfold parseArgs.
    match goal with |- context [parse_loop args ?o0] => set (init := o0) end.
    assert (json (parse_loop args init) = true) as Hj.
    { by apply (parse_loop_examined_inv (fun o => json o = true) _ parse_arg_keeps_json). }
    by destruct (_ && _).
  - intros args Hin. unfold parseArgs.
    match goal with |- context [parse_loop args ?o0] => set (init := o0) end.
    pose proof (parse_loop_no_flags_read args init Hin) as Hn. by rewrite Hn.
  - intros args epre epost He Hpost o. subst o. unfold parseArgs.
    match goal with |- context [parse_loop args ?o0] => set (init := o0) end.
    assert (noFlags (parse_loop args init) = true) as Hn.
    { apply parse_loop_no_flags_read. rewrite He. apply in_or_app. right. by left. }
    rewrite Hn. simpl.
    destruct (parse_loop_after_no_flags args epre epost init He Hpost) as (? & ? & ?).
    by split_and!.
  - intros net args w. apply main_without_flags.
Qed.

(** [--no-flags] after a [--limit] with its value is read as an option; after
    a bare [--limit] it is the value. *)
Example no_flags_after_limit :
  examined ["--limit"; "5"; "--no-flags"] = ["--limit"; "--no-flags"] /\
  noFlags (parseArgs (H := AsciiHost) ["--limit"; "5"; "--no-flags"]) = true /\
  examined ["--limit"; "--no-flags"] = ["--limit"] /\
  noFlags (parseArgs (H := AsciiHost) ["--limit"; "--no-flags"]) = false.
Proof. by vm_compute. Qed.

(** The argument [--only=json] contains [=], so it is split into the name
    [--only] and the value [json] before the names are compared: no branch
    matches and the options are left as they were.  Alone on the command
    line it yields the default, svg=true with noFlags=false, and main goes on
    to download the vector flags. *)
Lemma only_json_is_not_recognised `{JsHost} (next : option string) (o : opts) :
  parse_arg "--only=json" next o = (o, false).
Proof. reflexivity. Qed.

Example only_json_downloads_flags :
  parseArgs (H := AsciiHost) ["--only=json"]
  = {| svg := true; png := false; json := true; both := false; limit := 0%Z;
       noFlags := false |} /\
  requests (main (H := AsciiHost) sample_net ["--only=json"] empty_world).2
  = [COUNTRIES_URL; "https://flagcdn.com/fr.svg"; "https://flagcdn.com/us.svg"].
Proof. by vm_compute. Qed.

(** ** A run on the sample network *)

(** Default options: the list is saved, the French flag is stored, the
    failure for the other flag is printed and counted, and the run ends
    normally. *)
Example sample_run :
  let '(res, w) := main (H := AsciiHost) sample_net [] empty_world in
  res = Ok tt /\
  fs w !! "/app/assets/countries.json" = Some (FJson [FR; US]) /\
  fs w !! "/app/assets/flags/fr.svg" = Some (FBytes (arrayBuffer sample_svg_response)) /\
  fs w !! "/app/assets/flags/us.svg" = None /\
  requests w = [COUNTRIES_URL; "https://flagcdn.com/fr.svg"; "https://flagcdn.com/us.svg"] /\
  console w = [LogWrote "/app/assets/countries.json" 2;
               WarnSvgFail "US" (DownloadFailed "https://flagcdn.com/us.svg" 404);
               LogFlags 1 1].
Proof. by vm_compute. Qed.

(** A second run on the files of the first requests only the flag that is
    still missing. *)
Example sample_rerun :
  let w1 := (downloadFlags (H := AsciiHost) sample_net ["FR"; "US"]
               (parseArgs (H := AsciiHost) []) empty_world).2 in
  let w2 := (downloadFlags (H := AsciiHost) sample_net ["FR"; "US"]
               (parseArgs (H := AsciiHost) []) w1).2 in
  requests w2 = requests w1 ++ ["https://flagcdn.com/us.svg"] /\
  fs w2 = fs w1.
Proof. by vm_compute. Qed.

(** With [--both --limit 1] only the first code is tried, in both formats;
    the raster response is opaque and is stored. *)
Example sample_limited_run :
  let o := parseArgs (H := AsciiHost) ["--both"; "--limit"; "1"] in
  let w := (downloadFlags (H := AsciiHost) sample_net ["FR"; "US"] o empty_world).2 in
  limit o = 1%Z /\
  requests w = ["https://flagcdn.com/fr.svg"; "https://flagsapi.com/FR/flat/512.png"] /\
  fs w !! "/app/assets/flags/fr.png" = Some (FBytes (arrayBuffer sample_opaque_response)) /\
  console w = [LogFlags 2 0].
Proof. by vm_compute. Qed.

(** * Further properties of the tool *)

(** ** Reading the arguments *)

Section ArgsFacts.
Context `{JsHost}.

Lemma split_sep (c : ascii) (k s : string) :
  includes c k = false -> split c (k +:+ String c s) = k :: split c s.
Proof.
  induction k as [|d k IH]; simpl.
  - by rewrite Ascii.eqb_refl.
  - destruct (Ascii.eqb c d); [done|]. intros Hk. by rewrite IH.
Qed.

Lemma includes_app (c : ascii) (k s : string) :
  includes c (k +:+ String c s) = true.
Proof.
  induction k as [|d k IH]; simpl; [by rewrite Ascii.eqb_refl|].
  by destruct (Ascii.eqb c d).
Qed.

Lemma split_arg_no_value (a : string) : (split_arg a).2 = None -> (split_arg a).1 = a.
Proof.
  unfold split_arg. destruct (includes "=" a) eqn:Ha; [|done].
  by destruct (split_two_pieces "=" a Ha) as (k & v & rest & ->).
Qed.

(** Only a bare [--limit] looks at the argument that follows. *)
Lemma parse_arg_next (a : string) (n1 n2 : option string) (o : opts) :
  a <> "--limit" -> parse_arg a n1 o = parse_arg a n2 o.
Proof.
  intros Ha. unfold parse_arg. pose proof (split_arg_no_value a) as Hv.
  destruct (split_arg a) as [k [v|]]; simpl in Hv; [done|].
  rewrite Hv by done.
  repeat (match goal with
          | |- context [String.eqb a ?y] => destruct (String.eqb_spec a y)
          end); done.
Qed.

Lemma parse_loop_step (a : string) (rest : list string) (o : opts) :
  a <> "--limit" -> parse_loop (a :: rest) o = parse_loop rest (parse_arg a None o).1.
Proof.
  intros Ha. rewrite parse_loop_cons by done. by rewrite (parse_arg_next a _ None).
Qed.

Lemma parse_loop_prefix (pre post : list string) (o : opts) :
  ~ In "--limit" pre -> parse_loop (pre ++ post) o = parse_loop post (parse_loop pre o).
Proof.
  revert o. induction pre as [|a pre IH]; intros o Hpre; [done|].
  assert (a <> "--limit") as Ha by (intros ->; apply Hpre; by left).
  rewrite <- app_comm_cons, !parse_loop_step by done.
  apply IH. intros Hin. apply Hpre. by right.
Qed.
End ArgsFacts.

(** X1.  The argument [--only=json] changes nothing: wherever it stands
    among arguments that are read as options, parseArgs returns what it
    returns without it. *)
Theorem only_json_is_skipped `{JsHost} (pre post : list string) :
  ~ In "--limit" pre ->
  parseArgs (pre ++ "--only=json" :: post) = parseArgs (pre ++ post).
Proof.
  intros Hpre. unfold parseArgs.
  rewrite !parse_loop_prefix by done.
  by rewrite parse_loop_step.
Qed.

Lemma only_json_is_skipped_witness :
  ~ In "--limit" ["--no-json"] /\
  parseArgs (H := AsciiHost) (["--no-json"] ++ "--only=json" :: ["--png"])
  = parseArgs (H := AsciiHost) (["--no-json"] ++ ["--png"]).
Proof.
  split; [by intros [?|[]]|].
  apply (only_json_is_skipped (H := AsciiHost) ["--no-json"] ["--png"]).
  by intros [?|[]].
Defined.

(** X2.  A bare [--limit] takes the argument after it as its value, whatever
    that argument is: it is never read as an option, and the limit becomes
    [Number(arg) || 0] (0 for an empty argument).  A bare [--limit] at the
    end sets the limit to 0. *)
Theorem bare_limit_takes_next_argument `{JsHost} (pre : list string) (o : opts) :
  ~ In "--limit" pre ->
  (forall a post,
     parse_loop (pre ++ "--limit" :: a :: post) o
     = parse_loop post (set_limit (if truthy a then number_or_0 a else 0%Z)
                                  (parse_loop pre o))) /\
  parse_loop (pre ++ ["--limit"]) o = set_limit 0%Z (parse_loop pre o).
Proof.
  intros Hpre. split; [intros a post|]; by rewrite parse_loop_prefix.
Qed.

Lemma bare_limit_takes_next_argument_witness :
  ~ In "--limit" ["--png"] /\
  noFlags (parseArgs (H := AsciiHost) ["--png"; "--limit"; "--no-flags"]) = false.
Proof.
  split; [by intros [?|[]]|].
  unfold parseArgs.
  rewrite (proj1 (bare_limit_takes_next_argument (H := AsciiHost) ["--png"] _
                    ltac:(by intros [?|[]])) "--no-flags" []).
  reflexivity.
Defined.

(** X3.  parseArgs never returns options with downloads on and no format:
    unless noFlags is set, one of svg, png, both is true (a lone
    [--svg=false] falls back to svg).  So the test of main reduces to
    noFlags. *)
Theorem parseArgs_selects_a_format `{JsHost} (args : list string) :
  let o := parseArgs args in
  (noFlags o = false -> svg o || png o || both o = true) /\
  negb (noFlags o) && (svg o || png o || both o) = negb (noFlags o).
Proof.
  unfold parseArgs.
  destruct (parse_loop args _) as [[] [] j [] l []]; by simpl.
Qed.

(** X4.  toBool on ASCII text: a value is false exactly when it is empty or
    spells false, 0 or no in any mix of upper and lower case; so two values
    that differ only in case give the same boolean.  No value at all is
    true. *)
Theorem toBool_ignores_case `{JsHost} :
  toBool None = true /\
  (forall x, all_ascii x = true ->
     (toBool (Some x) = false <->
      x = "" \/ In (string_map ascii_lower x) ["false"; "0"; "no"])) /\
  (forall x y, all_ascii x = true -> all_ascii y = true ->
     string_map ascii_lower x = string_map ascii_lower y ->
     toBool (Some x) = toBool (Some y)).
Proof.
  assert (forall x, all_ascii x = true ->
            toBool (Some x) =
            (if String.eqb (string_map ascii_lower x) "false"
                || String.eqb (string_map ascii_lower x) "0"
                || String.eqb (string_map ascii_lower x) "no"
             then false else truthy x)) as Hb.
  { intros x Hx. unfold toBool. by rewrite toLowerCase_ascii. }
  split; [done|]. split.
  - intros x Hx. rewrite Hb by done. simpl.
    destruct (String.eqb_spec (string_map ascii_lower x) "false") as [->|?];
      [simpl; tauto|].
    destruct (String.eqb_spec (string_map ascii_lower x) "0") as [->|?];
      [simpl; tauto|].
    destruct (String.eqb_spec (string_map ascii_lower x) "no") as [->|?];
      [simpl; tauto|].
    simpl. unfold truthy. rewrite negb_false_iff, String.eqb_eq.
    split; [by left|]. intros [?|[?|[?|[?|[]]]]]; congruence.
  - intros x y Hx Hy Hxy. rewrite !Hb by done. rewrite Hxy.
    assert (truthy x = truthy y) as ->; [|done].
    unfold truthy. destruct x, y; done.
Qed.

(** X5.  Splitting an argument at [=]: an argument without [=] is a name
    with no value; [name=value] gives the name and the value; of
    [name=value=more] only the text between the first two [=] is kept as the
    value. *)
Theorem split_arg_name_and_value (k v : string) :
  includes "=" k = false -> includes "=" v = false ->
  split_arg k = (k, None) /\
  split_arg (k +:+ "=" +:+ v) = (k, Some v) /\
  (forall more, split_arg (k +:+ "=" +:+ v +:+ "=" +:+ more) = (k, Some v)).
Proof.
  intros Hk Hv. split; [|split].
  - unfold split_arg. by rewrite Hk.
  - change (k +:+ "=" +:+ v) with (k +:+ String "=" v).
    unfold split_arg. rewrite includes_app, split_sep by done.
    by rewrite (split_no_sep _ v).
  - intros more.
    change (k +:+ "=" +:+ v +:+ "=" +:+ more) with (k +:+ String "=" (v +:+ String "=" more)).
    unfold split_arg. rewrite includes_app, split_sep by done.
    by rewrite split_sep.
Qed.

Lemma split_arg_name_and_value_witness :
  includes "=" "--json" = false /\ includes "=" "no" = false /\
  split_arg ("--json" +:+ "=" +:+ "no" +:+ "=" +:+ "yes") = ("--json", Some "no").
Proof.
  split_and!; [reflexivity..|].
  by apply (split_arg_name_and_value "--json" "no").
Defined.

(** ** The list of countries *)

Section ListFacts.
Context `{JsHost}.

(** A string that passes the pattern is ASCII text in upper case. *)
Lemma code_re_test_ascii (s : string) :
  code_re_test s = true -> all_ascii s = true /\ string_map ascii_upper s = s /\ s <> "".
Proof.
  assert (forall c, is_AZ c = true -> is_ascii_unit c = true /\ ascii_upper c = c) as Hc.
  { intros c. destruct c as [[] [] [] [] [] [] [] []]; vm_compute; (discriminate || done). }
  destruct s as [|a [|b [|c s]]]; try done. simpl.
  intros [Ha Hb]%andb_true_iff. destruct (Hc a Ha) as [Ha1 Ha2], (Hc b Hb) as [Hb1 Hb2].
  unfold all_ascii. simpl. by rewrite Ha1, Hb1, Ha2, Hb2.
Qed.

Lemma or_else_nonempty (s : string) : s <> "" -> or_else (Some s) "" = s.
Proof. intros Hs. unfold or_else, truthy. by destruct (String.eqb_spec s ""). Qed.

(** A record that passes the filter is the reshaping of the entry built
    from its two fields. *)
Lemma simplify_raw_kept (c : country) : keep c = true -> simplify (raw (code c) (name c)) = c.
Proof.
  intros (Hcode & Hname & _)%keep_true.
  destruct (code_re_test_ascii _ Hcode) as (Hascii & Hup & Hne).
  destruct c as [cd nm]. simpl in *.
  change (simplify (raw cd nm))
    with {| code := toUpperCase (or_else (Some cd) ""); name := or_else (Some nm) "" |}.
  rewrite !or_else_nonempty by done. by rewrite toUpperCase_ascii, Hup.
Qed.

Lemma sort_of_sorted {A : Type} (cmp : A -> A -> Z) (l : list A) :
  StronglySorted (fun a b => cmp a b <= 0)%Z l -> sort cmp l = l.
Proof.
  induction 1 as [|x l Hl IH Hx]; [done|]. simpl. rewrite IH.
  destruct l as [|y l]; [done|]. simpl.
  apply Forall_cons in Hx as [Hxy _]. by rewrite (proj2 (Z.leb_le _ _) Hxy).
Qed.

Lemma filter_all {A : Type} (f : A -> bool) (l : list A) :
  (forall x, In x l -> f x = true) -> List.filter f l = l.
Proof.
  induction l as [|x l IH]; intros Hl; [done|]. simpl.
  rewrite (Hl x) by (by left). f_equal. apply IH. intros y Hy. apply Hl. by right.
Qed.
End ListFacts.

(** X6.  For an entry whose code is ASCII text: the entry is kept exactly
    when the code is two letters (of either case), is not XK in any case,
    and the entry has a non-empty common name. *)
Theorem ascii_entry_kept_iff `{JsHost} (r : Raw.t) (s : string) :
  Raw.cca2 r = Some s -> all_ascii s = true ->
  (keep (simplify r) = true <->
   spec_two_letter_code s = true /\ string_map ascii_upper s <> "XK" /\
   exists n, Raw.name r ≫= Raw.common = Some n /\ n <> "").
Proof.
  intros Hr Hs. rewrite keep_true. unfold simplify; simpl. rewrite Hr.
  assert (or_else (Raw.name r ≫= Raw.common) "" <> "" <->
          exists n, Raw.name r ≫= Raw.common = Some n /\ n <> "") as ->.
  { destruct (Raw.name r ≫= Raw.common) as [n|]; simpl.
    - unfold truthy. destruct (String.eqb_spec n "") as [->|Hn]; simpl.
      + split; [done|]. by intros (n & [= <-] & ?).
      + split; [by exists n|done].
    - split; [done|]. by intros (n & ? & _). }
  destruct (String.eqb_spec s "") as [->|Hne].
  - simpl. rewrite toUpperCase_empty. simpl. split; by intros [? _].
  - rewrite or_else_nonempty by done.
    rewrite code_re_test_upper, toUpperCase_ascii by done. tauto.
Qed.

Lemma ascii_entry_kept_iff_witness :
  Raw.cca2 (raw "fr" "France") = Some "fr" /\ all_ascii "fr" = true /\
  keep (simplify (H := AsciiHost) (raw "fr" "France")) = true.
Proof.
  split_and!; [reflexivity..|].
  apply (ascii_entry_kept_iff (H := AsciiHost) (raw "fr" "France") "fr"); [reflexivity..|].
  split_and!; [reflexivity|discriminate|].
  exists "France". by split.
Defined.

(** X7.  The filter-and-reshape step is idempotent: fed with its own output
    (each record as an entry with that code and that common name), it
    returns that output unchanged. *)
Theorem simple_is_idempotent `{JsHost} (data : list Raw.t) :
  simple (List.map (fun c => raw (code c) (name c)) (simple data)) = simple data.
Proof.
  assert (forall c, In c (simple data) -> keep c = true) as Hkeep.
  { by intros c [_ ?]%simple_In. }
  unfold simple at 1. rewrite List.map_map.
  rewrite (map_ext_in _ id).
  2:{ intros c Hc. by apply simplify_raw_kept, Hkeep. }
  rewrite List.map_id, filter_all by done.
  apply sort_of_sorted, (simple_sorted data).
Qed.

(** X8.  Flag URLs do not collide: two codes that pass the pattern and have
    the same vector URL are equal, two codes with the same raster URL are
    equal, and no vector URL is a raster URL. *)
Theorem flag_urls_are_distinct `{JsHost} (a b : string) :
  (code_re_test a = true -> code_re_test b = true -> svgUrl a = svgUrl b -> a = b) /\
  (pngUrl_default a = pngUrl_default b -> a = b) /\
  svgUrl a <> pngUrl_default b.
Proof.
  split; [|split; [apply pngUrl_inj|apply svgUrl_not_pngUrl]].
  intros Ha Hb Heq%svgUrl_same_lower.
  assert (forall c, is_AZ c = true -> ascii_upper (ascii_lower c) = c) as Hc.
  { intros c. destruct c as [[] [] [] [] [] [] [] []]; vm_compute; (discriminate || done). }
  destruct a as [|a1 [|a2 [|? ?]]], b as [|b1 [|b2 [|? ?]]]; try done. simpl in Ha, Hb.
  apply andb_true_iff in Ha as [Ha1 Ha2]. apply andb_true_iff in Hb as [Hb1 Hb2].
  destruct (lower_of_code a1 a2 Ha1 Ha2) as [Hla _].
  destruct (lower_of_code b1 b2 Hb1 Hb2) as [Hlb _].
  rewrite Hla, Hlb in Heq. injection Heq as H1 H2.
  by rewrite <- (Hc a1), <- (Hc a2), <- (Hc b1), <- (Hc b2), H1, H2.
Qed.

(** ** download *)

(** X9.  download makes exactly one request and prints nothing.  It changes
    no file other than destPath; when it throws it changes no file at all;
    when it returns, destPath holds the body of the response, whatever was
    there before. *)
Theorem download_touches_only_destPath (net : network) (url dest : string) (w : world) :
  let w' := (download net url dest w).2 in
  requests w' = requests w ++ [url] /\
  console w' = console w /\
  (forall p, p <> dest -> fs w' !! p = fs w !! p) /\
  (forall e, (download net url dest w).1 = Throw e -> fs w' = fs w) /\
  ((download net url dest w).1 = Ok tt ->
     exists r, net (requests w) url = Some r /\
               fs w' !! dest = Some (FBytes (arrayBuffer r))).
Proof.
  rewrite download_unfold.
  destruct (net (requests w) url) as [r|]; [|by simpl].
  destruct (negb (ok r) && negb (is_opaque (type_ r))); simpl; [done|].
  split_and!; try done.
  - intros p Hp. by rewrite lookup_insert_ne.
  - intros _. exists r. by rewrite lookup_insert_eq.
Qed.

(** ** downloadFlags *)

Section LimitFacts.
Context `{JsHost} (net : network).

Lemma capped_In (l : Z) (codes : list string) (code : string) :
  In code (capped l codes) -> In code codes.
Proof.
  unfold capped. destruct (0 <? l)%Z; [|done].
  intros Hin. rewrite <- (take_drop (Z.to_nat l) codes). apply in_or_app. by left.
Qed.
End LimitFacts.

(** X10.  A limit that is negative, or at least the number of codes, caps
    nothing: downloadFlags runs as with limit 0. *)
Theorem limit_out_of_range_caps_nothing `{JsHost} (net : network)
    (codes : list string) (o : opts) (w : world) :
  (limit o <= 0)%Z \/ (Z.of_nat (length codes) <= limit o)%Z ->
  capped (limit o) codes = codes /\
  downloadFlags net codes o w = downloadFlags net codes (set_limit 0%Z o) w.
Proof.
  intros Hl.
  assert (capped (limit o) codes = codes) as Hc.
  { unfold capped. destruct (Z.ltb_spec 0 (limit o)); [|done].
    apply take_ge. lia. }
  split; [done|]. unfold downloadFlags. by rewrite Hc.
Qed.

Lemma limit_out_of_range_caps_nothing_witness :
  ((limit (parseArgs (H := AsciiHost) ["--limit=-3"]) <= 0)%Z \/
   (Z.of_nat (length ["FR"; "US"]) <= limit (parseArgs (H := AsciiHost) ["--limit=-3"]))%Z) /\
  capped (limit (parseArgs (H := AsciiHost) ["--limit=-3"])) ["FR"; "US"] = ["FR"; "US"].
Proof.
  split; [left; by vm_compute|].
  apply (limit_out_of_range_caps_nothing (H := AsciiHost) sample_net ["FR"; "US"]
           (parseArgs (H := AsciiHost) ["--limit=-3"]) empty_world).
  left. by vm_compute.
Defined.

Section LoopFacts.
Context `{JsHost} (net : network).

Lemma run_jobs_cons (j : job) (js : list job) (cnt : nat * nat) (w : world) :
  run_jobs net (j :: js) cnt w =
  if bool_decide (is_Some (fs w !! j_out j)) then run_jobs net js cnt w
  else match net (requests w) (j_url j) with
       | Some r =>
           if negb (ok r) && negb (is_opaque (type_ r))
           then run_jobs net js (cnt.1, S cnt.2)
                  (warned (j_url j) (j_warn j (DownloadFailed (j_url j) (status r))) w)
           else run_jobs net js (S cnt.1, cnt.2) (stored (j_url j) (j_out j) r w)
       | None =>
           run_jobs net js (cnt.1, S cnt.2)
             (warned (j_url j) (j_warn j (FetchRejected (j_url j))) w)
       end.
Proof.
  cbn [run_jobs]. unfold mbind, M_bind. rewrite fetch_flag_unfold.
  destruct (bool_decide (is_Some (fs w !! j_out j))); [done|].
  rewrite download_unfold.
  destruct (net (requests w) (j_url j)) as [r|]; [|done].
  by destruct (negb (ok r) && negb (is_opaque (type_ r))).
Qed.

Lemma not_is_Some_None {A : Type} (x : option A) : ~ is_Some x -> x = None.
Proof. destruct x; [|done]. intros Hx. exfalso. apply Hx. eauto. Qed.

Lemma run_jobs_size (js : list job) (cnt cnt' : nat * nat) (w w' : world) :
  run_jobs net js cnt w = (Ok cnt', w') ->
  size (fs w') + cnt.1 = size (fs w) + cnt'.1.
Proof.
  revert cnt w. induction js as [|j js IH]; intros cnt w.
  { intros [= <- <-]. lia. }
  rewrite run_jobs_cons. case_bool_decide as Hex; [apply IH|].
  apply not_is_Some_None in Hex.
  destruct (net (requests w) (j_url j)) as [r|].
  - destruct (negb (ok r) && negb (is_opaque (type_ r))).
    + intros Hrun%IH. simpl in Hrun. lia.
    + intros Hrun%IH. simpl in Hrun. rewrite map_size_insert_None in Hrun by done. lia.
  - intros Hrun%IH. simpl in Hrun. lia.
Qed.

Lemma run_jobs_order (js : list job) (cnt cnt' : nat * nat) (w w' : world) :
  run_jobs net js cnt w = (Ok cnt', w') ->
  exists new, requests w' = requests w ++ new /\ new `sublist_of` List.map j_url js.
Proof.
  revert cnt w. induction js as [|j js IH]; intros cnt w.
  { intros [= <- <-]. exists []. by rewrite app_nil_r. }
  rewrite run_jobs_cons. simpl.
  assert (forall c w1, requests w1 = requests w ++ [j_url j] ->
            run_jobs net js c w1 = (Ok cnt', w') ->
            exists new, requests w' = requests w ++ new /\
                        new `sublist_of` j_url j :: List.map j_url js) as Hreq.
  { intros c w1 Hw1 (new & Hn & Hsub)%IH. exists (j_url j :: new).
    split; [by rewrite Hn, Hw1, <- app_assoc|]. by apply sublist_skip. }
  case_bool_decide as Hex.
  - intros (new & Hn & Hsub)%IH. exists new. split; [done|]. by apply sublist_cons.
  - destruct (net (requests w) (j_url j)) as [r|];
      [destruct (negb (ok r) && negb (is_opaque (type_ r)))|]; by apply Hreq.
Qed.

Lemma run_jobs_failures (js : list job) (cnt cnt' : nat * nat) (w w' : world) :
  run_jobs net js cnt w = (Ok cnt', w') ->
  cnt.2 <= cnt'.2 /\
  (forall p, is_Some (fs w !! p) -> is_Some (fs w' !! p)) /\
  (cnt'.2 = cnt.2 -> forall j, In j js -> is_Some (fs w' !! j_out j)).
Proof.
  revert cnt w. induction js as [|j js IH]; intros cnt w.
  { intros [= <- <-]. by split_and!. }
  rewrite run_jobs_cons. case_bool_decide as Hex.
  - intros (Hle & Hfr & Hall)%IH. split_and!; [done..|].
    intros Heq j' [<-|Hj']; [by apply Hfr|by apply Hall].
  - destruct (net (requests w) (j_url j)) as [r|];
      [destruct (negb (ok r) && negb (is_opaque (type_ r)))|];
      intros (Hle & Hfr & Hall)%IH; simpl in *.
    + split_and!; [lia|done|lia].
    + assert (forall p, is_Some (fs w !! p) -> is_Some (fs w' !! p)) as Hfr'.
      { intros p Hp. apply Hfr. destruct (decide (j_out j = p)) as [->|Hne].
        - rewrite lookup_insert_eq. eauto.
        - by rewrite lookup_insert_ne. }
      split_and!; [done..|].
      intros Heq j' [<-|Hj']; [|by apply Hall].
      apply Hfr. rewrite lookup_insert_eq. eauto.
    + split_and!; [lia|done|lia].
Qed.

Lemma run_jobs_all_exist (js : list job) (cnt : nat * nat) (w : world) :
  (forall j, In j js -> is_Some (fs w !! j_out j)) ->
  run_jobs net js cnt w = (Ok cnt, w).
Proof.
  induction js as [|j js IH]; intros Hall; [done|].
  rewrite run_jobs_cons, bool_decide_eq_true_2 by (apply Hall; by left).
  apply IH. intros j' Hj'. apply Hall. by right.
Qed.

Lemma downloadFlags_unfold (codes : list string) (o : opts) (w : world) :
  downloadFlags net codes o w =
  match run_jobs net (jobs_of (svg o || both o) (png o || both o) (capped (limit o) codes))
          (0, 0) w with
  | (Ok cnt, w1) =>
      (Ok tt, {| fs := fs w1; requests := requests w1;
                 console := console w1 ++ [LogFlags cnt.1 cnt.2] |})
  | (Throw e, w1) => (Throw e, w1)
  end.
Proof.
  unfold downloadFlags, ensureDir, console_print. munfold.
  rewrite flags_loop_jobs. by destruct (run_jobs _ _ _ _) as [[?|?] ?].
Qed.

Lemma jobs_of_urls (dlSvg dlPng : bool) (codes : list string) :
  List.map j_url (jobs_of dlSvg dlPng codes) =
  flat_map (fun code => (if dlSvg then [svgUrl code] else []) ++
                        (if dlPng then [pngUrl_default code] else [])) codes.
Proof.
  induction codes as [|code codes IH]; [done|].
  cbn [jobs_of flat_map]. fold (jobs_of dlSvg dlPng codes).
  rewrite List.map_app, IH. by destruct dlSvg, dlPng.
Qed.
End LoopFacts.

(** X11.  The number of downloads that downloadFlags reports in its last
    line is the number of files it created. *)
Theorem reported_downloads_are_files_created `{JsHost} (net : network)
    (codes : list string) (o : opts) (w : world) :
  exists w' n_ok n_fail,
    downloadFlags net codes o w = (Ok tt, w') /\
    last (console w') = Some (LogFlags n_ok n_fail) /\
    size (fs w') = size (fs w) + n_ok.
Proof.
  rewrite downloadFlags_unfold.
  destruct (run_jobs_spec net
              (jobs_of (svg o || both o) (png o || both o) (capped (limit o) codes))
              (0, 0) w) as (cnt' & w1 & new & warns & Hrun & _).
  rewrite Hrun. eexists _, cnt'.1, cnt'.2. split; [done|]. simpl.
  split; [apply last_snoc|].
  apply run_jobs_size in Hrun. simpl in Hrun. lia.
Qed.

(** X12.  downloadFlags makes its requests in the order of the list, the
    vector URL of a code before its raster URL: the requests of a run are a
    subsequence, in the same order, of that sequence of URLs. *)
Theorem requests_follow_the_list `{JsHost} (net : network)
    (codes : list string) (o : opts) (w : world) :
  exists w' new,
    downloadFlags net codes o w = (Ok tt, w') /\
    requests w' = requests w ++ new /\
    new `sublist_of`
      flat_map (fun code => (if svg o || both o then [svgUrl code] else []) ++
                            (if png o || both o then [pngUrl_default code] else []))
               (capped (limit o) codes).
Proof.
  rewrite downloadFlags_unfold.
  destruct (run_jobs_spec net
              (jobs_of (svg o || both o) (png o || both o) (capped (limit o) codes))
              (0, 0) w) as (cnt' & w1 & new0 & warns & Hrun & _).
  rewrite Hrun. destruct (run_jobs_order net _ _ _ _ _ Hrun) as (new & Hreq & Hsub).
  eexists _, new. split; [done|]. simpl. split; [done|].
  by rewrite <- jobs_of_urls.
Qed.

(** X13.  After a run of downloadFlags that printed no warning and reported
    no failure, the same run again makes no request and changes no file: it
    only prints that 0 flags were downloaded and 0 failed. *)
Theorem rerun_after_success_does_nothing `{JsHost} (net : network)
    (codes : list string) (o : opts) (w w' : world) (n : nat) :
  downloadFlags net codes o w = (Ok tt, w') ->
  console w' = console w ++ [LogFlags n 0] ->
  downloadFlags net codes o w' =
    (Ok tt, {| fs := fs w'; requests := requests w';
               console := console w' ++ [LogFlags 0 0] |}).
Proof.
  rewrite downloadFlags_unfold.
  destruct (run_jobs_spec net
              (jobs_of (svg o || both o) (png o || both o) (capped (limit o) codes))
              (0, 0) w) as (cnt' & w1 & new & warns & Hrun & Hpost).
  rewrite Hrun. intros [= <-]. simpl. intros Hcon.
  apply app_inj_tail in Hcon as [_ [= _ Hfail]].
  destruct (run_jobs_failures net _ _ _ _ _ Hrun) as (_ & _ & Hall).
  rewrite downloadFlags_unfold, run_jobs_all_exist; [done|].
  simpl. by apply Hall.
Qed.

Lemma rerun_after_success_does_nothing_witness :
  let o := parseArgs (H := AsciiHost) [] in
  let w' := (downloadFlags (H := AsciiHost) sample_net ["FR"] o empty_world).2 in
  downloadFlags (H := AsciiHost) sample_net ["FR"] o empty_world = (Ok tt, w') /\
  console w' = console empty_world ++ [LogFlags 1 0] /\
  requests (downloadFlags (H := AsciiHost) sample_net ["FR"] o w').2 = requests w'.
Proof.
  split; [by vm_compute|]. split; [by vm_compute|].
  rewrite (rerun_after_success_does_nothing (H := AsciiHost) sample_net ["FR"]
             (parseArgs (H := AsciiHost) []) empty_world _ 1);
    by vm_compute.
Defined.

(** ** main *)

Section WholeRun.
Context `{JsHost} (net : network).

(** The world after [saveCountriesJson(items)]. *)
Lemma saveCountriesJson_unfold (items : list country) (w : world) :
  saveCountriesJson items w =
  (Ok tt, {| fs := <[COUNTRIES_JSON := FJson items]> (fs w); requests := requests w;
             console := console w ++ [LogWrote COUNTRIES_JSON (length items)] |}).
Proof. reflexivity. Qed.

Lemma main_ok (args : list string) (w : world) (r : response) (data : list Raw.t) :
  net (requests w) COUNTRIES_URL = Some r -> ok r = true -> json_ r = Some data ->
  main net args w =
  let o := parseArgs args in
  let w2 := if json o then (saveCountriesJson (simple data) (requested COUNTRIES_URL w)).2
            else requested COUNTRIES_URL w in
  if negb (noFlags o) && (svg o || png o || both o)
  then downloadFlags net (List.map code (simple data)) o w2
  else (Ok tt, w2).
Proof.
  intros Hnet Hok Hjson. unfold main, fetchCountries, fetch. munfold.
  rewrite Hnet, Hok, Hjson. simpl.
  by destruct (json (parseArgs args)), (negb (noFlags (parseArgs args)) && _).
Qed.

Lemma main_fail (args : list string) (w : world) :
  ~ (exists r data, net (requests w) COUNTRIES_URL = Some r /\ ok r = true /\
                    json_ r = Some data) ->
  exists e, main net args w = (Throw e, requested COUNTRIES_URL w).
Proof.
  intros Hno. unfold main, fetchCountries, fetch. munfold.
  destruct (net (requests w) COUNTRIES_URL) as [r|]; [|eexists; reflexivity].
  destruct (ok r) eqn:Hok; simpl; [|eexists; reflexivity].
  destruct (json_ r) as [data|] eqn:Hjson; [|eexists; reflexivity].
  exfalso. apply Hno. by exists r, data.
Qed.

Lemma main_cases (args : list string) (w : world) :
  (exists r data, net (requests w) COUNTRIES_URL = Some r /\ ok r = true /\
                  json_ r = Some data) \/
  ~ (exists r data, net (requests w) COUNTRIES_URL = Some r /\ ok r = true /\
                    json_ r = Some data).
Proof.
  destruct (net (requests w) COUNTRIES_URL) as [r|]; [|right; by intros (? & ? & ? & _)].
  destruct (ok r) eqn:Hok; [|right; intros (? & ? & [= <-] & ? & _); congruence].
  destruct (json_ r) as [data|] eqn:Hj; [left; by exists r, data|].
  right. intros (? & ? & [= <-] & _ & ?). congruence.
Qed.

Lemma listed_code (data : list Raw.t) (l : Z) (cd : string) :
  In cd (capped l (List.map code (simple data))) ->
  exists c, In c (simple data) /\ code c = cd /\ code_re_test cd = true.
Proof.
  intros Hin%capped_In. apply in_map_iff in Hin as (c & <- & Hc).
  exists c. split; [done|]. split; [done|].
  apply simple_In in Hc as [_ Hk]. by apply keep_true in Hk as [? _].
Qed.
End WholeRun.

(** X14.  Whatever the remote list contains, every file that a run of main
    creates is the countries file or a file of the flags directory named by
    two lower-case letters and [.svg] or [.png]. *)
Theorem main_creates_only_flag_files `{JsHost} (net : network)
    (args : list string) (w : world) (p : string) :
  fs w !! p = None -> is_Some (fs (main net args w).2 !! p) ->
  p = COUNTRIES_JSON \/
  exists a b ext, is_az a = true /\ is_az b = true /\ (ext = ".svg" \/ ext = ".png") /\
                  p = path_join FLAGS_DIR (String a (String b ext)).
Proof.
  intros Hp Hp'.
  destruct (main_cases net args w) as [(r & data & Hnet & Hok & Hjson)|Hno].
  2:{ destruct (main_fail net args w Hno) as (e & Hm). rewrite Hm in Hp'. simpl in Hp'.
      rewrite Hp in Hp'. by destruct Hp'. }
  rewrite (main_ok net args w r data Hnet Hok Hjson) in Hp'. cbv zeta in Hp'.
  destruct (decide (p = COUNTRIES_JSON)) as [|Hne]; [by left|]. right.
  set (w2 := if json (parseArgs args)
             then (saveCountriesJson (simple data) (requested COUNTRIES_URL w)).2
             else requested COUNTRIES_URL w) in *.
  assert (fs w2 !! p = None) as Hw2.
  { unfold w2. destruct (json (parseArgs args)); simpl; [|done].
    by rewrite lookup_insert_ne. }
  destruct (negb (noFlags (parseArgs args)) && _).
  2:{ change (is_Some (fs w2 !! p)) in Hp'. rewrite Hw2 in Hp'. by destruct Hp'. }
  destruct (downloadFlags_spec net (List.map code (simple data)) (parseArgs args) w2)
    as (cnt' & w3 & new & warns & Hrun & Hpost).
  rewrite Hrun in Hp'. change (is_Some (fs w3 !! p)) in Hp'.
  destruct (post_created _ _ _ _ _ _ _ _ Hpost p Hw2 Hp') as (j & _ & _ & Hj & Hout & _).
  apply jobs_of_In in Hj as (cd & Hcd & Hjob).
  apply listed_code in Hcd as (_ & _ & _ & Hre).
  destruct cd as [|a [|b [|? ?]]]; try done. simpl in Hre.
  apply andb_true_iff in Hre as [Ha Hb].
  destruct (lower_of_code a b Ha Hb) as (Hl & Hla & Hlb).
  destruct Hjob as [[_ ->]|[_ ->]]; simpl in Hout; rewrite Hl in Hout.
  - exists (ascii_lower a), (ascii_lower b), ".svg". split_and!; auto.
  - exists (ascii_lower a), (ascii_lower b), ".png". split_and!; auto.
Qed.

Lemma main_creates_only_flag_files_witness :
  fs empty_world !! "/app/assets/flags/fr.svg" = None /\
  is_Some (fs (main (H := AsciiHost) sample_net [] empty_world).2
             !! "/app/assets/flags/fr.svg") /\
  ("/app/assets/flags/fr.svg" = COUNTRIES_JSON (H := AsciiHost) \/
   exists a b ext, is_az a = true /\ is_az b = true /\ (ext = ".svg" \/ ext = ".png") /\
     "/app/assets/flags/fr.svg"
     = path_join (JsHost := AsciiHost) FLAGS_DIR (String a (String b ext))).
Proof.
  split; [reflexivity|]. split; [by vm_compute; eexists|].
  apply (main_creates_only_flag_files (H := AsciiHost) sample_net [] empty_world);
    [reflexivity|]. vm_compute. by eexists.
Defined.

(** X15.  For the bodies of the model (a body that parses is a list of
    country objects with fields typed as in the API): the process exits with
    0 exactly when the request for the country list resolves to an ok
    response whose body parses; otherwise it exits with 1, having made that
    single request, written no file, and printed only the error. *)
Theorem exit_code_tells_the_list_was_fetched `{JsHost} (net : network)
    (args : list string) (w : world) :
  ((run net args w).1 = 0 <->
   exists r data, net (requests w) COUNTRIES_URL = Some r /\ ok r = true /\
                  json_ r = Some data) /\
  ((run net args w).1 <> 0 ->
   exists e, run net args w =
     (1, {| fs := fs w; requests := requests w ++ [COUNTRIES_URL];
            console := console w ++ [LogError e] |})).
Proof.
  destruct (main_cases net args w) as [(r & data & Hnet & Hok & Hjson)|Hno].
  - assert (exists w', main net args w = (Ok tt, w')) as (w' & Hm).
    { rewrite (main_ok net args w r data Hnet Hok Hjson). cbv zeta.
      destruct (negb (noFlags (parseArgs args)) && _); [|by eexists].
      match goal with |- context [downloadFlags net ?c ?o ?w2] =>
        destruct (downloadFlags_spec net c o w2) as (? & ? & ? & ? & -> & _) end.
      by eexists. }
    unfold run. rewrite Hm. simpl. split; [|done].
    split; [intros _; by exists r, data|done].
  - destruct (main_fail net args w Hno) as (e & Hm).
    unfold run. rewrite Hm. simpl. split; [by split|].
    intros _. by exists e.
Qed.

(** X16.  With JSON output off, a run of main changes no existing file. *)
Theorem without_json_no_file_is_overwritten `{JsHost} (net : network)
    (args : list string) (w : world) (p : string) (f : file) :
  json (parseArgs args) = false ->
  fs w !! p = Some f -> fs (main net args w).2 !! p = Some f.
Proof.
  intros Hj Hp.
  destruct (main_cases net args w) as [(r & data & Hnet & Hok & Hjson)|Hno].
  2:{ destruct (main_fail net args w Hno) as (e & ->). done. }
  rewrite (main_ok net args w r data Hnet Hok Hjson). cbv zeta. rewrite Hj.
  destruct (negb (noFlags (parseArgs args)) && _); [|done].
  match goal with |- context [downloadFlags net ?c ?o ?w2] =>
    destruct (downloadFlags_spec net c o w2) as (? & w3 & ? & ? & -> & Hpost) end.
  change (fs w3 !! p = Some f). by apply Hpost.
Qed.

Lemma without_json_no_file_is_overwritten_witness :
  let w := {| fs := {[ "/app/assets/countries.json" := FJson [] ]};
              requests := []; console := [] |} in
  json (parseArgs (H := AsciiHost) ["--no-json"]) = false /\
  fs w !! "/app/assets/countries.json" = Some (FJson []) /\
  fs (main (H := AsciiHost) sample_net ["--no-json"] w).2 !! "/app/assets/countries.json"
  = Some (FJson []).
Proof.
  intros w. split; [reflexivity|]. split; [reflexivity|].
  by apply (without_json_no_file_is_overwritten (H := AsciiHost) sample_net
              ["--no-json"] w).
Defined.

(** X17.  When the country list is fetched, main ends normally; after the
    request for the list it requests only flag URLs of codes of the filtered
    list, at most two per country. *)
Theorem main_requests_only_listed_flags `{JsHost} (net : network)
    (args : list string) (w : world) (r : response) (data : list Raw.t) :
  net (requests w) COUNTRIES_URL = Some r -> ok r = true -> json_ r = Some data ->
  exists w' new,
    main net args w = (Ok tt, w') /\
    requests w' = requests w ++ COUNTRIES_URL :: new /\
    length new <= 2 * length (simple data) /\
    forall u, In u new ->
      exists c, In c (simple data) /\ (u = svgUrl (code c) \/ u = pngUrl_default (code c)).
Proof.
  intros Hnet Hok Hjson.
  rewrite (main_ok net args w r data Hnet Hok Hjson). cbv zeta.
  set (w2 := if json (parseArgs args)
             then (saveCountriesJson (simple data) (requested COUNTRIES_URL w)).2
             else requested COUNTRIES_URL w).
  assert (requests w2 = requests w ++ [COUNTRIES_URL]) as Hw2.
  { unfold w2. by destruct (json (parseArgs args)). }
  destruct (negb (noFlags (parseArgs args)) && _).
  2:{ exists w2, []. split; [done|]. split; [done|]. split; [simpl; lia|]. by intros u []. }
  destruct (downloadFlags_spec net (List.map code (simple data)) (parseArgs args) w2)
    as (cnt' & w3 & new & warns & Hrun & Hpost).
  eexists _, new. split; [exact Hrun|]. simpl.
  split; [by rewrite (post_requests _ _ _ _ _ _ _ _ Hpost), Hw2, <- app_assoc|].
  split.
  - etrans; [apply Hpost|]. etrans; [apply jobs_of_length|].
    assert (length (capped (limit (parseArgs args)) (List.map code (simple data)))
            <= length (simple data)); [|lia].
    unfold capped. destruct (0 <? _)%Z; rewrite ?length_take, length_map; lia.
  - intros u Hu.
    destruct (post_requested _ _ _ _ _ _ _ _ Hpost u Hu) as (j & Hj & <- & _).
    apply jobs_of_In in Hj as (cd & Hcd & Hjob).
    apply listed_code in Hcd as (c & Hc & <- & _). exists c. split; [done|].
    destruct Hjob as [[_ ->]|[_ ->]]; [by left|by right].
Qed.

Lemma main_requests_only_listed_flags_witness :
  sample_net (requests empty_world) COUNTRIES_URL = Some sample_countries_response /\
  ok sample_countries_response = true /\
  json_ sample_countries_response = Some [raw "US" "United States"; raw "FR" "France"] /\
  exists w' new,
    main (H := AsciiHost) sample_net ["--both"] empty_world = (Ok tt, w') /\
    requests w' = requests empty_world ++ COUNTRIES_URL :: new /\
    length new <= 2 * length [FR; US].
Proof.
  split_and!; [reflexivity..|].
  destruct (main_requests_only_listed_flags (H := AsciiHost) sample_net ["--both"]
              empty_world sample_countries_response
              [raw "US" "United States"; raw "FR" "France"] eq_refl eq_refl eq_refl)
    as (w' & new & Hm & Hreq & Hlen & _).
  by exists w', new.
Defined.

(** ** What becomes of each flag *)

Section OutcomeFacts.
Context `{JsHost} (net : network).

Lemma run_jobs_frame (js : list job) (cnt cnt' : nat * nat) (w w' : world) :
  run_jobs net js cnt w = (Ok cnt', w') ->
  forall p f, fs w !! p = Some f -> fs w' !! p = Some f.
Proof.
  intros Hrun.
  destruct (run_jobs_spec net js cnt w) as (c & w1 & new & warns & Hrun' & Hpost).
  rewrite Hrun' in Hrun. injection Hrun as -> ->. apply Hpost.
Qed.

Lemma cond_true (r : response) :
  negb (ok r) && negb (is_opaque (type_ r)) = true -> ok r = false /\ type_ r <> Opaque.
Proof.
  intros [Hok Hop]%andb_true_iff. apply negb_true_iff in Hok, Hop.
  split; [done|]. intros Ht. rewrite Ht in Hop. discriminate.
Qed.

Lemma cond_false (r : response) :
  negb (ok r) && negb (is_opaque (type_ r)) = false -> ok r = true \/ type_ r = Opaque.
Proof.
  intros [Hok|Hop]%andb_false_iff; [left|right].
  - by apply negb_false_iff in Hok.
  - apply negb_false_iff in Hop. by apply is_opaque_true.
Qed.

(** Where the files and the missing files of a run come from: a file that
    the run created holds the body of a successful fetch made for a job with
    that destination; a job whose destination is missing at the end made its
    request, and that fetch failed. *)
Lemma run_jobs_outcome (js : list job) (cnt cnt' : nat * nat) (w w' : world) :
  run_jobs net js cnt w = (Ok cnt', w') ->
  exists new,
    requests w' = requests w ++ new /\
    (forall p f, fs w !! p = None -> fs w' !! p = Some f ->
       exists j0 pre post r,
         In j0 js /\ j_out j0 = p /\ new = pre ++ j_url j0 :: post /\
         fetch_succeeds net (requests w ++ pre) (j_url j0) r /\
         f = FBytes (arrayBuffer r)) /\
    (forall j, In j js -> fs w' !! j_out j = None ->
       exists pre post,
         new = pre ++ j_url j :: post /\ fetch_fails net (requests w ++ pre) (j_url j)).
Proof.
  revert cnt w. induction js as [|j1 js IH]; intros cnt w.
  { intros [= <- <-]. exists []. split; [by rewrite app_nil_r|].
    split; [intros p f Hp Hp'; congruence|by intros j []]. }
  rewrite run_jobs_cons. case_bool_decide as Hex.
  { intros Hrun. destruct (IH _ _ Hrun) as (new & Hreq & Hprov & Hfail).
    exists new. split; [done|]. split.
    - intros p f Hp Hp'. destruct (Hprov p f Hp Hp') as (j0 & pre & post & r & ? & ?).
      exists j0, pre, post, r. by split; [right|].
    - intros j [<-|Hj] Hnone; [|by apply Hfail].
      destruct Hex as [f Hf]. apply (run_jobs_frame _ _ _ _ _ Hrun) in Hf. congruence. }
  apply not_is_Some_None in Hex.
  (* the rest of the run, after the request of [j1] *)
  assert (forall c w1,
            run_jobs net js c w1 = (Ok cnt', w') ->
            requests w1 = requests w ++ [j_url j1] ->
            exists new',
              requests w' = requests w ++ j_url j1 :: new' /\
              (forall p f, fs w1 !! p = None -> fs w' !! p = Some f ->
                 exists j0 pre post r,
                   In j0 (j1 :: js) /\ j_out j0 = p /\
                   j_url j1 :: new' = pre ++ j_url j0 :: post /\
                   fetch_succeeds net (requests w ++ pre) (j_url j0) r /\
                   f = FBytes (arrayBuffer r)) /\
              (forall j, In j js -> fs w' !! j_out j = None ->
                 exists pre post,
                   j_url j1 :: new' = pre ++ j_url j :: post /\
                   fetch_fails net (requests w ++ pre) (j_url j))) as Hrest.
  { intros c w1 Hrun Hw1. destruct (IH _ _ Hrun) as (new' & Hreq & Hprov & Hfail).
    exists new'. split; [by rewrite Hreq, Hw1, <- app_assoc|]. split.
    - intros p f Hp Hp'.
      destruct (Hprov p f Hp Hp') as (j0 & pre & post & r & Hj0 & Hout & -> & Hs & Hf).
      exists j0, (j_url j1 :: pre), post, r. split; [by right|]. split; [done|].
      split; [done|]. split; [|done].
      by rewrite Hw1, <- app_assoc in Hs.
    - intros j Hj Hnone. destruct (Hfail j Hj Hnone) as (pre & post & -> & Hf).
      exists (j_url j1 :: pre), post. split; [done|].
      by rewrite Hw1, <- app_assoc in Hf. }
  destruct (net (requests w) (j_url j1)) as [r|] eqn:Hnet;
    [destruct (negb (ok r) && negb (is_opaque (type_ r))) eqn:Hcond|].
  - (* the fetch resolves to a response that is refused *)
    intros Hrun. destruct (Hrest _ _ Hrun eq_refl) as (new' & Hreq & Hprov & Hfail).
    exists (j_url j1 :: new'). split; [done|]. split; [exact Hprov|].
    intros j [<-|Hj] Hnone; [|by apply Hfail].
    exists [], new'. split; [done|]. rewrite app_nil_r. right. exists r.
    split; [done|]. by apply cond_true.
  - (* the fetch succeeds and the body is stored *)
    intros Hrun. destruct (Hrest _ _ Hrun eq_refl) as (new' & Hreq & Hprov & Hfail).
    assert (fs w' !! j_out j1 = Some (FBytes (arrayBuffer r))) as Hmine.
    { apply (run_jobs_frame _ _ _ _ _ Hrun). simpl. apply lookup_insert_eq. }
    exists (j_url j1 :: new'). split; [done|]. split.
    + intros p f Hp Hp'. destruct (decide (p = j_out j1)) as [->|Hne].
      * exists j1, [], new', r. split; [by left|]. split; [done|]. split; [done|].
        rewrite app_nil_r. split; [split; [done|by apply cond_false]|congruence].
      * apply Hprov; [|done]. simpl. by rewrite lookup_insert_ne.
    + intros j [<-|Hj] Hnone; [congruence|by apply Hfail].
  - (* the fetch rejects *)
    intros Hrun. destruct (Hrest _ _ Hrun eq_refl) as (new' & Hreq & Hprov & Hfail).
    exists (j_url j1 :: new'). split; [done|]. split; [exact Hprov|].
    intros j [<-|Hj] Hnone; [|by apply Hfail].
    exists [], new'. split; [done|]. rewrite app_nil_r. by left.
Qed.
End OutcomeFacts.

Section RunOutcome.
Context `{JsHost} (net : network).

(** The URLs that a run considers, in order: for each code of the list the
    vector URL, then the raster URL, of the enabled formats. *)
Lemma downloadFlags_outcome (codes : list string) (o : opts) (w : world) :
  let list := if (0 <? limit o)%Z then take (Z.to_nat (limit o)) codes else codes in
  let js := jobs_of (svg o || both o) (png o || both o) list in
  exists w' n_ok n_fail new warns,
    downloadFlags net codes o w = (Ok tt, w') /\
    requests w' = requests w ++ new /\
    console w' = console w ++ warns ++ [LogFlags n_ok n_fail] /\
    length warns = n_fail /\ n_ok + n_fail = length new /\
    new `sublist_of` List.map j_url js /\
    (forall p f, fs w !! p = None -> fs w' !! p = Some f ->
       exists j0 pre post r,
         In j0 js /\ j_out j0 = p /\ new = pre ++ j_url j0 :: post /\
         fetch_succeeds net (requests w ++ pre) (j_url j0) r /\
         f = FBytes (arrayBuffer r)) /\
    (forall j, In j js ->
       is_Some (fs w' !! j_out j) \/
       exists pre post,
         new = pre ++ j_url j :: post /\ fetch_fails net (requests w ++ pre) (j_url j)).
Proof.
  intros list js. rewrite downloadFlags_unfold.
  change (capped (limit o) codes) with list. fold js.
  destruct (run_jobs_spec net js (0, 0) w) as (cnt' & w1 & new & warns & Hrun & Hpost).
  rewrite Hrun.
  destruct (run_jobs_order net _ _ _ _ _ Hrun) as (new2 & Hreq2 & Hsub).
  destruct (run_jobs_outcome net _ _ _ _ _ Hrun) as (new3 & Hreq3 & Hprov & Hfail).
  pose proof (post_requests _ _ _ _ _ _ _ _ Hpost) as Hreq.
  assert (new2 = new) as -> by (rewrite Hreq in Hreq2; by apply app_inv_head in Hreq2).
  assert (new3 = new) as -> by (rewrite Hreq in Hreq3; by apply app_inv_head in Hreq3).
  eexists _, cnt'.1, cnt'.2, new, warns. split; [done|]. simpl.
  split; [done|].
  split; [by rewrite (post_console _ _ _ _ _ _ _ _ Hpost), <- app_assoc|].
  pose proof (post_count _ _ _ _ _ _ _ _ Hpost) as Hcnt.
  pose proof (post_fail _ _ _ _ _ _ _ _ Hpost) as Hf. simpl in Hcnt, Hf.
  split; [lia|]. split; [lia|]. split; [done|]. split; [done|].
  intros j Hj. destruct (fs w1 !! j_out j) as [f|] eqn:Hout; [left; eauto|].
  right. by apply Hfail.
Qed.
End RunOutcome.


(** C7.  The vector URL of a code is the flagcdn endpoint with the lowercase
    code and [.svg]; the raster URL is the flagsapi endpoint with the code,
    the style flat and the size 512, and [.png].  For a two-letter uppercase
    code the lowercase code is the two lowercase letters.  In the loop, a
    flag whose file is missing and whose fetch succeeds is written to the
    file of the flags directory named by the lowercase code plus [.svg]
    (vector URL) or [.png] (raster URL).  For a whole run: every file it
    creates is such a file for a code of the list and holds the body of a
    successful fetch of the matching URL; every code of the list has, for
    each enabled format, its file afterwards unless the fetch for it failed;
    in particular a flag whose URL is always served is on disk under that
    name. *)
Theorem flag_urls_and_filenames `{JsHost} (net : network) :
  (forall code, svgUrl code = "https://flagcdn.com/" +:+ toLowerCase code +:+ ".svg") /\
  (forall code, pngUrl_default code = "https://flagsapi.com/" +:+ code +:+ "/flat/512.png") /\
  (forall a b, is_AZ a = true -> is_AZ b = true ->
     svgUrl (String a (String b "")) =
       "https://flagcdn.com/" +:+ String (ascii_lower a) (String (ascii_lower b) ".svg") /\
     is_az (ascii_lower a) = true /\ is_az (ascii_lower b) = true) /\
  (forall code cnt w r,
     (fs w !! path_join FLAGS_DIR (toLowerCase code +:+ ".svg") = None ->
      fetch_succeeds net (requests w) (svgUrl code) r ->
      flag_step net true false code cnt w =
        (Ok (S cnt.1, cnt.2),
         stored (svgUrl code) (path_join FLAGS_DIR (toLowerCase code +:+ ".svg")) r w)) /\
     (fs w !! path_join FLAGS_DIR (toLowerCase code +:+ ".png") = None ->
      fetch_succeeds net (requests w) (pngUrl_default code) r ->
      flag_step net false true code cnt w =
        (Ok (S cnt.1, cnt.2),
         stored (pngUrl_default code)
           (path_join FLAGS_DIR (toLowerCase code +:+ ".png")) r w))) /\
  (forall codes o w,
     let list := if (0 <? limit o)%Z then take (Z.to_nat (limit o)) codes else codes in
     exists w' new,
       downloadFlags net codes o w = (Ok tt, w') /\
       requests w' = requests w ++ new /\
       (forall p, fs w !! p = None -> is_Some (fs w' !! p) ->
          exists code pre post r, In code list /\
            ((svg o || both o = true /\
              p = path_join FLAGS_DIR (toLowerCase code +:+ ".svg") /\
              new = pre ++ svgUrl code :: post /\
              fetch_succeeds net (requests w ++ pre) (svgUrl code) r) \/
             (png o || both o = true /\
              p = path_join FLAGS_DIR (toLowerCase code +:+ ".png") /\
              new = pre ++ pngUrl_default code :: post /\
              fetch_succeeds net (requests w ++ pre) (pngUrl_default code) r)) /\
            fs w' !! p = Some (FBytes (arrayBuffer r))) /\
       (forall code, In code list ->
          (svg o || both o = true ->
             is_Some (fs w' !! path_join FLAGS_DIR (toLowerCase code +:+ ".svg")) \/
             exists pre post,
               new = pre ++ svgUrl code :: post /\
               fetch_fails net (requests w ++ pre) (svgUrl code)) /\
          (png o || both o = true ->
             is_Some (fs w' !! path_join FLAGS_DIR (toLowerCase code +:+ ".png")) \/
             exists pre post,
               new = pre ++ pngUrl_default code :: post /\
               fetch_fails net (requests w ++ pre) (pngUrl_default code))) /\
       (forall code, In code list ->
          (svg o || both o = true ->
             (forall reqs, ~ fetch_fails net reqs (svgUrl code)) ->
             is_Some (fs w' !! path_join FLAGS_DIR (toLowerCase code +:+ ".svg"))) /\
          (png o || both o = true ->
             (forall reqs, ~ fetch_fails net reqs (pngUrl_default code)) ->
             is_Some (fs w' !! path_join FLAGS_DIR (toLowerCase code +:+ ".png"))))).
Proof.
  split; [apply svgUrl_eq|]. split; [apply pngUrl_eq|]. split; [|split].
  - intros a b Ha Hb. destruct (lower_of_code a b Ha Hb) as (Hl & ? & ?).
    split; [|done]. by rewrite svgUrl_eq, Hl.
  - assert (forall url out warn cnt w r,
              fs w !! out = None -> fetch_succeeds net (requests w) url r ->
              fetch_flag net url out warn cnt w = (Ok (S cnt.1, cnt.2), stored url out r w))
      as Hone.
    { intros url out warn cnt w r Hout [Hnet Hr].
      rewrite fetch_flag_unfold, bool_decide_eq_false_2
        by (rewrite Hout; by intros [? ?]).
      rewrite download_unfold, Hnet.
      assert (negb (ok r) && negb (is_opaque (type_ r)) = false) as ->; [|done].
      destruct Hr as [->|Ht]; [done|]. rewrite Ht. by destruct (ok r). }
    intros code cnt w r. split; intros Hout Hs.
    + unfold flag_step. munfold. by rewrite (Hone _ _ _ _ _ r).
    + unfold flag_step. munfold. by rewrite (Hone _ _ _ _ _ r).
  - intros codes o w list.
    destruct (downloadFlags_outcome net codes o w)
      as (w' & n_ok & n_fail & new & warns & Hrun & Hreq & _ & _ & _ & _ & Hprov & Hall).
    assert (forall code, In code list ->
              (svg o || both o = true ->
                 is_Some (fs w' !! path_join FLAGS_DIR (toLowerCase code +:+ ".svg")) \/
                 exists pre post,
                   new = pre ++ svgUrl code :: post /\
                   fetch_fails net (requests w ++ pre) (svgUrl code)) /\
              (png o || both o = true ->
                 is_Some (fs w' !! path_join FLAGS_DIR (toLowerCase code +:+ ".png")) \/
                 exists pre post,
                   new = pre ++ pngUrl_default code :: post /\
                   fetch_fails net (requests w ++ pre) (pngUrl_default code))) as Hcodes.
    { intros code Hcode. split; intros Hen.
      - apply (Hall (svg_job code)), jobs_of_In. exists code. split; [done|]. by left.
      - apply (Hall (png_job code)), jobs_of_In. exists code. split; [done|]. by right. }
    exists w', new. split; [done|]. split; [done|]. split; [|split; [done|]].
    + intros p Hp [f Hf].
      destruct (Hprov p f Hp Hf) as (j0 & pre & post & r & Hj0 & Hout & Hnew & Hs & ->).
      apply jobs_of_In in Hj0 as (code & Hcode & [[Hen ->]|[Hen ->]]);
        exists code, pre, post, r; (split; [done|]); (split; [|done]); [left|right]; done.
    + intros code Hcode. destruct (Hcodes code Hcode) as [Hsvg Hpng].
      split; intros Hen Hserved.
      * destruct (Hsvg Hen) as [?|(pre & post & _ & Hf)]; [done|]. by apply Hserved in Hf.
      * destruct (Hpng Hen) as [?|(pre & post & _ & Hf)]; [done|]. by apply Hserved in Hf.
Qed.
